(** * WSLMCP: the command bridge, the path translator and the
      environment directory operations

    A shallow embedding of [wsl_mcp/core/wsl.py],
    [wsl_mcp/tools/file_manager.py], [wsl_mcp/core/__init__.py] and
    [wsl_mcp/server.py], followed by the properties of the specification
    that concern them and by further properties of the code.

    Python values are embedded as follows.
    - [str] is a sequence of Unicode code points: [list N].
    - [int] is [Z].
    - An exception is a class tag with the text [str(e)] would give.
    - A call that may raise returns a [pyresult]; [try/except] is
      [try_except].
    - [subprocess.run] is an oracle [run argv timeout] that either returns
      the completed process (exit code and the two captured streams, already
      decoded with [errors='replace']) or raises.
    - A [dict] display is a finite map from [str] keys, filled from left
      to right. *)

From Stdlib Require Import ZArith NArith Lia Ascii String DecimalString.
From stdpp Require Import base option list gmap strings.

Local Open Scope N_scope.

(* ================================================================== *)
(** ** Python strings *)
(* ================================================================== *)

Module PyStr.

Definition char : Type := N.
Definition str : Type := list char.

(** *** Literals

    A literal of the source is written as a Rocq string, whose bytes are
    the UTF-8 encoding of the text; [u] decodes it into code points. *)

Fixpoint bytes_of (s : string) : list N :=
  match s with
  | EmptyString => []
  | String a r => N_of_ascii a :: bytes_of r
  end.

Definition cont (b : N) : N := b mod 64.

Fixpoint utf8_decode (bs : list N) : str :=
  match bs with
  | [] => []
  | b0 :: r0 =>
      if b0 <? 128 then b0 :: utf8_decode r0 else
      match r0 with
      | [] => []
      | b1 :: r1 =>
          if b0 <? 224 then ((b0 mod 32) * 64 + cont b1) :: utf8_decode r1 else
          match r1 with
          | [] => []
          | b2 :: r2 =>
              if b0 <? 240
              then ((b0 mod 16) * 4096 + cont b1 * 64 + cont b2) :: utf8_decode r2
              else
                match r2 with
                | [] => []
                | b3 :: r3 =>
                    ((b0 mod 8) * 262144 + cont b1 * 4096 + cont b2 * 64 + cont b3)
                      :: utf8_decode r3
                end
          end
      end
  end.

Definition u (s : string) : str := utf8_decode (bytes_of s).

(** A few code points that the source names. *)
Definition SLASH : char := 47.      (* forward slash *)
Definition BACKSLASH : char := 92.  (* backslash *)
Definition COLON : char := 58.      (* colon *)
Definition NEWLINE : char := 10.    (* line feed *)
Definition SPACE : char := 32.      (* space *)
Definition QUOTE : char := 39.      (* single quote *)
Definition DQUOTE : char := 34.     (* double quote *)

(** *** [str.isspace] on one code point: the white space of Python 3 *)
Definition isspace (c : char) : bool :=
  ((9 <=? c) && (c <=? 13)) || ((28 <=? c) && (c <=? 32))
  || (c =? 133) || (c =? 160) || (c =? 5760)
  || ((8192 <=? c) && (c <=? 8202))
  || (c =? 8232) || (c =? 8233) || (c =? 8239) || (c =? 8287) || (c =? 12288).

(** *** [str.strip()] *)
Fixpoint lstrip (s : str) : str :=
  match s with
  | [] => []
  | c :: r => if isspace c then lstrip r else s
  end.

Definition rstrip (s : str) : str := rev (lstrip (rev s)).

Definition strip (s : str) : str := rstrip (lstrip s).

(** *** [str.split()] without argument: runs of white space separate,
    no empty token is produced. *)
Fixpoint split_ws (s : str) : list str :=
  match s with
  | [] => []
  | c :: r =>
      if isspace c then split_ws r else
      match r with
      | [] => [[c]]
      | c' :: _ =>
          if isspace c' then [c] :: split_ws r else
          match split_ws r with
          | t :: ts => (c :: t) :: ts
          | [] => [[c]]
          end
      end
  end.

(** *** [str.split(sep)] for a separator of one character, which is how
    the program calls it (on a line feed and on a slash).  The result is
    never empty: splitting the empty string gives one empty part. *)
Fixpoint split (sep : char) (s : str) : list str :=
  match s with
  | [] => [[]]
  | c :: r =>
      if c =? sep then [] :: split sep r else
      match split sep r with
      | t :: ts => (c :: t) :: ts
      | [] => [[c]]
      end
  end.

(** *** [sep.join(parts)] *)
Fixpoint join (sep : str) (parts : list str) : str :=
  match parts with
  | [] => []
  | [p] => p
  | p :: rest => p ++ sep ++ join sep rest
  end.

(** *** [s.startswith(prefix)] *)
Fixpoint startswith (s prefix : str) : bool :=
  match prefix, s with
  | [], _ => true
  | _ :: _, [] => false
  | p :: prefix', c :: s' => (c =? p) && startswith s' prefix'
  end.

(** *** [s.replace(old, new)]: occurrences are found from the left and do
    not overlap.  [skip] counts the characters of a matched occurrence
    still to be passed over. *)
Fixpoint replace_from (old new s : str) (skip : nat) : str :=
  match s with
  | [] => []
  | c :: r =>
      match skip with
      | S k => replace_from old new r k
      | O =>
          if startswith s old
          then new ++ replace_from old new r (length old - 1)
          else c :: replace_from old new r 0
      end
  end.

Definition replace (s old new : str) : str :=
  match old with
  | [] => new ++ flat_map (fun c => c :: new) s
  | _ :: _ => replace_from old new s 0
  end.

(** *** [str.lower()] and [str.upper()]

    On ASCII the mapping is written out.  Beyond ASCII it is the
    interpreter's Unicode table, which may map one code point to several;
    the table is a parameter.  [lower] is used by the program on strings of
    one character only, where the mapping is per code point. *)
Section Case.
Variable unicode_lower unicode_upper : char -> str.

Definition lower_char (c : char) : str :=
  if (65 <=? c) && (c <=? 90) then [c + 32]
  else if c <? 128 then [c] else unicode_lower c.

Definition upper_char (c : char) : str :=
  if (97 <=? c) && (c <=? 122) then [c - 32]
  else if c <? 128 then [c] else unicode_upper c.

Definition lower (s : str) : str := flat_map lower_char s.
Definition upper (s : str) : str := flat_map upper_char s.
End Case.

(** *** [str(n)] for an [int] *)
Definition str_of_int (n : Z) : str :=
  bytes_of (NilEmpty.string_of_int (Z.to_int n)).

(** Truth value of a string in a condition: non-empty. *)
Definition truthy (s : str) : bool :=
  match s with [] => false | _ :: _ => true end.

End PyStr.

Import PyStr.


(* ================================================================== *)
(** ** Python values, exceptions and results *)
(* ================================================================== *)

Module Py.

(** The exception classes the program distinguishes in its handlers.
    All of them derive from [Exception]. *)
Inductive exn_class : Type :=
  | TimeoutExpired   (* subprocess.TimeoutExpired *)
  | OSError          (* the launcher could not be started *)
  | IndexError
  | ValueError
  | UnicodeDecodeError
  | OtherException.

(** An exception: its class and the text of [str(e)]. *)
Record exn : Type := Exn { exn_class_of : exn_class; exn_str : str }.

Inductive pyresult (A : Type) : Type :=
  | Return (a : A)
  | Raise (e : exn).
Arguments Return {A} a.
Arguments Raise {A} e.

#[export] Instance pyresult_ret : MRet pyresult := λ A a, Return a.
#[export] Instance pyresult_bind : MBind pyresult := λ A B k m,
  match m with
  | Return a => k a
  | Raise e => Raise e
  end.

(** [try: body except ...: handler e] *)
Definition try_except {A} (body : pyresult A) (handler : exn → pyresult A)
  : pyresult A :=
  match body with
  | Return a => Return a
  | Raise e => handler e
  end.

Definition is_class (c : exn_class) (e : exn) : bool :=
  match c, exn_class_of e with
  | TimeoutExpired, TimeoutExpired | OSError, OSError
  | IndexError, IndexError | ValueError, ValueError
  | UnicodeDecodeError, UnicodeDecodeError
  | OtherException, OtherException => true
  | _, _ => false
  end.

(** [l[i]] for a non-negative literal index [i]. *)
Definition index {A} (l : list A) (i : nat) : pyresult A :=
  match l !! i with
  | Some x => Return x
  | None => Raise (Exn IndexError (u "list index out of range"))
  end.

(** The values stored in the dictionaries the operations return. *)
#[warnings="-register-all"] Inductive value : Type :=
  | VNone
  | VBool (b : bool)
  | VInt (n : Z)
  | VStr (s : str)
  | VList (l : list value)
  | VDict (d : gmap str value).

Definition dict : Type := gmap str value.

(** A dictionary display [{k1: v1, k2: v2, ...}]: the items are stored
    from left to right, so a later item replaces an earlier one of the same
    key. *)
Definition dict_of (kvs : list (str * value)) : dict :=
  foldl (λ d kv, <[kv.1 := kv.2]> d) ∅ kvs.

(** The value a display holds for a key: that of the last item with it. *)
Fixpoint assoc_last (k : str) (kvs : list (str * value)) : option value :=
  match kvs with
  | [] => None
  | (k', v) :: rest =>
      match assoc_last k rest with
      | Some w => Some w
      | None => if bool_decide (k' = k) then Some v else None
      end
  end.

(** A [for] loop whose body may raise: the first exception ends it. *)
Fixpoint foldlM {A B} (f : A → B → pyresult A) (a : A) (l : list B)
  : pyresult A :=
  match l with
  | [] => mret a
  | x :: rest => a' ← f a x; foldlM f a' rest
  end.

End Py.

Import Py.

(* ================================================================== *)
(** ** [wsl_mcp/core/wsl.py] *)
(* ================================================================== *)

Module Bridge.

(** What [subprocess.run] returns with [capture_output=True, text=True]. *)
Record CompletedProcess : Type := Completed {
  cp_returncode : Z;
  cp_stdout : str;
  cp_stderr : str
}.

Record WSLCommandResult : Type := mkResult {
  returncode : Z;
  stdout : str;
  stderr : str
}.

(** [subprocess.run(argv, capture_output=True, text=True, timeout=t,
    encoding='utf-8', errors='replace')] *)
Definition launcher : Type := list str → Z → pyresult CompletedProcess.

(** [WSLTool._find_wsl] *)
Definition _find_wsl : str := u "wsl.exe".
(** [self.wsl_path], set in [__init__] *)
Definition wsl_path : str := _find_wsl.

Definition msg_timeout : str := u "命令执行超时".

(** The two handlers of [execute_command] and [execute_command_advanced]. *)
Definition on_timeout_or_error (e : exn) : pyresult WSLCommandResult :=
  if is_class TimeoutExpired e
  then mret (mkResult (-1)%Z [] msg_timeout)
  else mret (mkResult (-1)%Z [] (exn_str e)).

(** The single handler [except Exception as e] of the lifecycle commands. *)
Definition on_error (e : exn) : pyresult WSLCommandResult :=
  mret (mkResult (-1)%Z [] (exn_str e)).

(** [cmd_list] of [execute_command_advanced], statement by statement. *)
Definition advanced_cmd_list
    (command distribution user working_dir shell_type : str) : list str :=
  let cmd_list := [wsl_path] in
  let cmd_list :=
    if truthy distribution then cmd_list ++ [u "-d"; distribution] else cmd_list in
  let cmd_list :=
    if truthy user then cmd_list ++ [u "-u"; user] else cmd_list in
  let cmd_list :=
    if truthy working_dir then cmd_list ++ [u "--cd"; working_dir] else cmd_list in
  let cmd_list :=
    if truthy shell_type then cmd_list ++ [u "--shell-type"; shell_type] else cmd_list in
  cmd_list ++ [u "--exec"; u "sh"; u "-c"; command].

(** [cmd_list] of [install_distribution]. *)
Definition install_cmd_list
    (distribution : str) (web_download no_launch : bool) : list str :=
  let cmd_list := [wsl_path; u "--install"] in
  let cmd_list := if truthy distribution then cmd_list ++ [distribution] else cmd_list in
  let cmd_list := if web_download then cmd_list ++ [u "--web-download"] else cmd_list in
  let cmd_list := if no_launch then cmd_list ++ [u "--no-launch"] else cmd_list in
  cmd_list.

Section WSLTool.
Variable run : launcher.

Definition execute_command (command : str) (timeout : Z)
  : pyresult WSLCommandResult :=
  try_except
    (result ← run [wsl_path; u "sh"; u "-c"; command] timeout;
     mret (mkResult (cp_returncode result)
                    (strip (cp_stdout result))
                    (strip (cp_stderr result))))
    on_timeout_or_error.

Definition execute_command_advanced
    (command distribution user working_dir shell_type : str) (timeout : Z)
  : pyresult WSLCommandResult :=
  try_except
    (let cmd_list :=
       advanced_cmd_list command distribution user working_dir shell_type in
     result ← run cmd_list timeout;
     mret (mkResult (cp_returncode result)
                    (strip (cp_stdout result))
                    (strip (cp_stderr result))))
    on_timeout_or_error.

(** The lifecycle commands that answer with a fixed message: stdout is
    [message if result.returncode == 0 else ""]. *)
Definition lifecycle (argv : list str) (timeout : Z) (message : str)
  : pyresult WSLCommandResult :=
  try_except
    (result ← run argv timeout;
     mret (mkResult (cp_returncode result)
                    (if bool_decide (cp_returncode result = 0%Z)
                     then message else [])
                    (strip (cp_stderr result))))
    on_error.

Definition shutdown_wsl : pyresult WSLCommandResult :=
  lifecycle [wsl_path; u "--shutdown"] 10%Z (u "WSL已关闭").

Definition terminate_distribution (distribution : str)
  : pyresult WSLCommandResult :=
  lifecycle [wsl_path; u "-t"; distribution] 10%Z
    (u "发行版 " ++ distribution ++ u " 已终止").

Definition set_default_distribution (distribution : str)
  : pyresult WSLCommandResult :=
  lifecycle [wsl_path; u "-s"; distribution] 10%Z
    (distribution ++ u " 已设为默认发行版").

Definition export_distribution (distribution file_path format_type : str)
  : pyresult WSLCommandResult :=
  lifecycle
    [wsl_path; u "--export"; distribution; file_path; u "--format"; format_type]
    300%Z (u "发行版已导出到 " ++ file_path).

Definition import_distribution
    (distribution install_location file_path : str) (version : Z)
  : pyresult WSLCommandResult :=
  lifecycle
    [wsl_path; u "--import"; distribution; install_location; file_path;
     u "--version"; str_of_int version]
    300%Z (u "发行版 " ++ distribution ++ u " 已导入").

Definition unregister_distribution (distribution : str)
  : pyresult WSLCommandResult :=
  lifecycle [wsl_path; u "--unregister"; distribution] 30%Z
    (u "发行版 " ++ distribution ++ u " 已注销").

Definition get_wsl_status : pyresult WSLCommandResult :=
  try_except
    (result ← run [wsl_path; u "--status"] 10%Z;
     mret (mkResult (cp_returncode result)
                    (strip (cp_stdout result))
                    (strip (cp_stderr result))))
    on_error.

Definition install_distribution
    (distribution : str) (web_download no_launch : bool)
  : pyresult WSLCommandResult :=
  lifecycle (install_cmd_list distribution web_download no_launch) 300%Z
    (u "正在安装发行版...").

(** The loop of [list_online_distributions] over [lines[1:]]. *)
Definition online_step (distros : list str) (line : str) : list str :=
  if truthy (strip line) then distros ++ [strip line] else distros.

Definition list_online_distributions : pyresult (list str) :=
  try_except
    (result ← run [wsl_path; u "-l"; u "--online"] 30%Z;
     if bool_decide (cp_returncode result = 0%Z) then
       let lines := split NEWLINE (strip (cp_stdout result)) in
       let distros := foldl online_step [] (drop 1 lines) in
       mret distros
     else mret [])
    (λ _, mret []).

(** No handler in the three functions below. *)
Definition get_wsl_version : pyresult str :=
  result ← run [wsl_path; u "--version"] 10%Z;
  mret (if bool_decide (cp_returncode result = 0%Z)
        then strip (cp_stdout result) else u "无法获取WSL版本").

(** The body of the loop of [list_distributions]. *)
Definition distro_step (distros : list dict) (line : str)
  : pyresult (list dict) :=
  if truthy (strip line) then
    let parts := split_ws line in
    name ← index parts 0;
    state ← (if (1 <? length parts)%nat then index parts 1 else mret []);
    version ← (if (2 <? length parts)%nat then index parts 2 else mret []);
    mret (distros ++ [dict_of [(u "名称", VStr name);
                               (u "状态", VStr state);
                               (u "版本", VStr version)]])
  else mret distros.

Definition list_distributions : pyresult (list dict) :=
  result ← run [wsl_path; u "-l"; u "--verbose"] 10%Z;
  if bool_decide (cp_returncode result = 0%Z) then
    let lines := split NEWLINE (strip (cp_stdout result)) in
    foldlM distro_step [] (drop 1 lines)
  else mret [].

Definition get_default_distribution : pyresult str :=
  result ← run [wsl_path; u "-e"; u "echo"; u "$WSL_DISTRO_NAME"] 10%Z;
  mret (if bool_decide (cp_returncode result = 0%Z)
        then strip (cp_stdout result) else []).

End WSLTool.

(** The two path conversions.  They do not run the launcher. *)
Section Paths.
Variable unicode_lower unicode_upper : char → str.

Definition convert_windows_path (windows_path : str) : pyresult str :=
  if (2 <=? length windows_path)%nat
     && bool_decide (windows_path !! 1%nat = Some COLON)
  then
    c ← index windows_path 0;
    let drive := lower unicode_lower [c] in
    let wsl_path :=
      u "/mnt/" ++ drive ++ u "/"
        ++ replace (replace (drop 2 windows_path) [BACKSLASH] (u "/"))
                   (u "//") (u "/") in
    mret wsl_path
  else mret windows_path.

Definition convert_to_windows_path (wsl_path : str) : pyresult str :=
  if startswith wsl_path (u "/mnt/") then
    let parts := split SLASH wsl_path in
    if (3 <=? length parts)%nat then
      p ← index parts 2;
      let drive := upper unicode_upper p in
      let windows_path :=
        drive ++ [COLON; BACKSLASH] ++ join (u "/") (drop 3 parts) in
      mret (replace windows_path (u "/") [BACKSLASH])
    else mret wsl_path
  else mret wsl_path.
End Paths.

End Bridge.

Import Bridge.

(* ================================================================== *)
(** ** [wsl_mcp/tools/file_manager.py] *)
(* ================================================================== *)

Module FileManager.

(** Keys and texts of the returned dictionaries. *)
Definition K_SUCCESS : str := u "成功".
Definition K_ERROR : str := u "错误".
Definition K_MESSAGE : str := u "消息".
Definition K_FILE_PATH : str := u "文件路径".
Definition K_DIR_PATH : str := u "目录路径".
Definition K_PATH : str := u "路径".
Definition K_SOURCE : str := u "源路径".
Definition K_DESTINATION : str := u "目标路径".
Definition K_CONTENT : str := u "内容".
Definition K_NAME : str := u "名称".
Definition K_PERMS : str := u "权限".
Definition K_TYPE : str := u "类型".
Definition T_DIRECTORY : str := u "目录".
Definition T_FILE : str := u "文件".

(** [content.replace(quote, quote dquote quote dquote quote)] *)
Definition escape_quotes (content : str) : str :=
  replace content [QUOTE] [QUOTE; DQUOTE; QUOTE; DQUOTE; QUOTE].

(** The body of the loop of [list_directory]. *)
Definition listing_step (items : list value) (line : str)
  : pyresult (list value) :=
  if truthy line then
    let parts := split_ws line in
    if (9 <=? length parts)%nat then
      perms ← index parts 0;
      let name := join (u " ") (drop 8 parts) in
      let is_dir := startswith perms (u "d") in
      mret (items ++ [VDict (dict_of
              [(K_NAME, VStr name);
               (K_PERMS, VStr perms);
               (K_TYPE, VStr (if is_dir then T_DIRECTORY else T_FILE))])])
    else mret items
  else mret items.

(** The shell command each operation builds (the assignment to
    [command] at its head). *)
Definition read_file_command (file_path : str) : str :=
  u "cat '" ++ file_path ++ u "'".

Definition write_file_command (file_path content : str) : str :=
  let escaped_content := escape_quotes content in
  u "echo '" ++ escaped_content ++ u "' > '" ++ file_path ++ u "'".

Definition append_to_file_command (file_path content : str) : str :=
  let escaped_content := escape_quotes content in
  u "echo '" ++ escaped_content ++ u "' >> '" ++ file_path ++ u "'".

Definition create_directory_command (dir_path : str) (parents : bool) : str :=
  if parents then u "mkdir -p '" ++ dir_path ++ u "'"
  else u "mkdir '" ++ dir_path ++ u "'".

Definition list_directory_command (dir_path : str) : str :=
  u "ls -la '" ++ dir_path ++ u "'".

Definition delete_file_command (file_path : str) (recursive : bool) : str :=
  if recursive then u "rm -rf '" ++ file_path ++ u "'"
  else u "rm -f '" ++ file_path ++ u "'".

Definition copy_file_command (source destination : str) (recursive : bool) : str :=
  if recursive
  then u "cp -r '" ++ source ++ u "' '" ++ destination ++ u "'"
  else u "cp '" ++ source ++ u "' '" ++ destination ++ u "'".

Definition move_file_command (source destination : str) : str :=
  u "mv '" ++ source ++ u "' '" ++ destination ++ u "'".

Definition get_file_info_command (file_path : str) : str :=
  u "stat '" ++ file_path ++ u "'".

Definition file_exists_command (file_path : str) : str :=
  u "if [ -e '" ++ file_path
    ++ u "' ]; then echo 'exists'; else echo 'not_exists'; fi".

Definition is_directory_command (path : str) : str :=
  u "if [ -d '" ++ path ++ u "' ]; then echo 'dir'; else echo 'not_dir'; fi".

Definition is_file_command (path : str) : str :=
  u "if [ -f '" ++ path ++ u "' ]; then echo 'file'; else echo 'not_file'; fi".

Definition get_current_directory_command : str := u "pwd".

Definition change_directory_command (dir_path : str) : str :=
  u "cd '" ++ dir_path ++ u "' && pwd".

(** [end_line] is [Optional[int]]; [if end_line:] holds for an integer
    other than zero. *)
Definition read_file_lines_command
    (file_path : str) (start_line : Z) (end_line : option Z) : str :=
  match end_line with
  | Some e =>
      if bool_decide (e = 0%Z)
      then u "sed -n '" ++ str_of_int start_line ++ u ",$p' '"
             ++ file_path ++ u "'"
      else u "sed -n '" ++ str_of_int start_line ++ u ","
             ++ str_of_int e ++ u "p' '" ++ file_path ++ u "'"
  | None =>
      u "sed -n '" ++ str_of_int start_line ++ u ",$p' '"
        ++ file_path ++ u "'"
  end.

Definition search_in_file_command (file_path pattern : str) (use_regex : bool)
  : str :=
  if use_regex
  then u "grep -n '" ++ pattern ++ u "' '" ++ file_path ++ u "'"
  else u "grep -nF '" ++ pattern ++ u "' '" ++ file_path ++ u "'".

Definition count_lines_command (file_path : str) : str :=
  u "wc -l '" ++ file_path ++ u "'".

Definition succeeded (result : WSLCommandResult) : bool :=
  bool_decide (returncode result = 0%Z).

Section Operations.
Variable run : launcher.
(** The builtin [int] on a string: [None] where it raises [ValueError]. *)
Variable int_of_str : str → option Z.

Definition py_int (s : str) : pyresult Z :=
  match int_of_str s with
  | Some n => Return n
  | None => Raise (Exn ValueError (u "invalid literal for int()"))
  end.

(** [wsl_tool.execute_command(command)], with the default timeout. *)
Definition call (command : str) : pyresult WSLCommandResult :=
  execute_command run command 30%Z.

Definition read_file (file_path encoding : str) : pyresult dict :=
  let command := read_file_command file_path in
  result ← call command;
  if succeeded result then
    try_except
      (let content := stdout result in
       mret (dict_of [(K_SUCCESS, VBool true);
                      (K_FILE_PATH, VStr file_path);
                      (K_CONTENT, VStr content);
                      (u "编码", VStr encoding)]))
      (λ e, if is_class UnicodeDecodeError e
            then mret (dict_of
                   [(K_SUCCESS, VBool false);
                    (K_FILE_PATH, VStr file_path);
                    (K_ERROR, VStr (u "文件编码无法解析，请尝试其他编码"))])
            else Raise e)
  else
    mret (dict_of [(K_SUCCESS, VBool false);
                   (K_FILE_PATH, VStr file_path);
                   (K_ERROR, VStr (stderr result))]).

Definition write_file (file_path content encoding : str) : pyresult dict :=
  let command := write_file_command file_path content in
  result ← call command;
  if succeeded result then
    mret (dict_of [(K_SUCCESS, VBool true);
                   (K_FILE_PATH, VStr file_path);
                   (K_MESSAGE, VStr (u "文件写入成功"))])
  else
    mret (dict_of [(K_SUCCESS, VBool false);
                   (K_FILE_PATH, VStr file_path);
                   (K_ERROR, VStr (stderr result))]).

Definition append_to_file (file_path content encoding : str) : pyresult dict :=
  let command := append_to_file_command file_path content in
  result ← call command;
  if succeeded result then
    mret (dict_of [(K_SUCCESS, VBool true);
                   (K_FILE_PATH, VStr file_path);
                   (K_MESSAGE, VStr (u "内容追加成功"))])
  else
    mret (dict_of [(K_SUCCESS, VBool false);
                   (K_FILE_PATH, VStr file_path);
                   (K_ERROR, VStr (stderr result))]).

Definition create_directory (dir_path : str) (parents : bool) : pyresult dict :=
  let command := create_directory_command dir_path parents in
  result ← call command;
  if succeeded result then
    mret (dict_of [(K_SUCCESS, VBool true);
                   (K_DIR_PATH, VStr dir_path);
                   (K_MESSAGE, VStr (u "目录创建成功"))])
  else
    mret (dict_of [(K_SUCCESS, VBool false);
                   (K_DIR_PATH, VStr dir_path);
                   (K_ERROR, VStr (stderr result))]).

Definition list_directory (dir_path : str) : pyresult dict :=
  let command := list_directory_command dir_path in
  result ← call command;
  if succeeded result then
    let lines := split NEWLINE (strip (stdout result)) in
    items ← foldlM listing_step [] lines;
    mret (dict_of [(K_SUCCESS, VBool true);
                   (K_DIR_PATH, VStr dir_path);
                   (u "项目数量", VInt (Z.of_nat (length items)));
                   (K_CONTENT, VList items)])
  else
    mret (dict_of [(K_SUCCESS, VBool false);
                   (K_DIR_PATH, VStr dir_path);
                   (K_ERROR, VStr (stderr result))]).

Definition delete_file (file_path : str) (recursive : bool) : pyresult dict :=
  let command := delete_file_command file_path recursive in
  result ← call command;
  if succeeded result then
    mret (dict_of [(K_SUCCESS, VBool true);
                   (K_PATH, VStr file_path);
                   (K_MESSAGE, VStr (u "删除成功"))])
  else
    mret (dict_of [(K_SUCCESS, VBool false);
                   (K_PATH, VStr file_path);
                   (K_ERROR, VStr (stderr result))]).

Definition copy_file (source destination : str) (recursive : bool)
  : pyresult dict :=
  let command := copy_file_command source destination recursive in
  result ← call command;
  if succeeded result then
    mret (dict_of [(K_SUCCESS, VBool true);
                   (K_SOURCE, VStr source);
                   (K_DESTINATION, VStr destination);
                   (K_MESSAGE, VStr (u "复制成功"))])
  else
    mret (dict_of [(K_SUCCESS, VBool false);
                   (K_SOURCE, VStr source);
                   (K_DESTINATION, VStr destination);
                   (K_ERROR, VStr (stderr result))]).

Definition move_file (source destination : str) : pyresult dict :=
  let command := move_file_command source destination in
  result ← call command;
  if succeeded result then
    mret (dict_of [(K_SUCCESS, VBool true);
                   (K_SOURCE, VStr source);
                   (K_DESTINATION, VStr destination);
                   (K_MESSAGE, VStr (u "移动成功"))])
  else
    mret (dict_of [(K_SUCCESS, VBool false);
                   (K_SOURCE, VStr source);
                   (K_DESTINATION, VStr destination);
                   (K_ERROR, VStr (stderr result))]).

Definition get_file_info (file_path : str) : pyresult dict :=
  let command := get_file_info_command file_path in
  result ← call command;
  if succeeded result then
    mret (dict_of [(K_SUCCESS, VBool true);
                   (K_PATH, VStr file_path);
                   (u "详细信息", VStr (stdout result))])
  else
    mret (dict_of [(K_SUCCESS, VBool false);
                   (K_PATH, VStr file_path);
                   (K_ERROR, VStr (stderr result))]).

Definition file_exists (file_path : str) : pyresult dict :=
  let command := file_exists_command file_path in
  result ← call command;
  let exists_ := bool_decide (stdout result = u "exists") in
  mret (dict_of [(K_SUCCESS, VBool true);
                 (K_PATH, VStr file_path);
                 (u "存在", VBool exists_)]).

Definition is_directory (path : str) : pyresult dict :=
  let command := is_directory_command path in
  result ← call command;
  let is_dir := bool_decide (stdout result = u "dir") in
  mret (dict_of [(K_SUCCESS, VBool true);
                 (K_PATH, VStr path);
                 (u "是目录", VBool is_dir)]).

Definition is_file (path : str) : pyresult dict :=
  let command := is_file_command path in
  result ← call command;
  let is_file := bool_decide (stdout result = u "file") in
  mret (dict_of [(K_SUCCESS, VBool true);
                 (K_PATH, VStr path);
                 (u "是文件", VBool is_file)]).

Definition get_current_directory : pyresult dict :=
  result ← call get_current_directory_command;
  if succeeded result then
    mret (dict_of [(K_SUCCESS, VBool true);
                   (u "当前目录", VStr (stdout result))])
  else
    mret (dict_of [(K_SUCCESS, VBool false);
                   (K_ERROR, VStr (stderr result))]).

Definition change_directory (dir_path : str) : pyresult dict :=
  let command := change_directory_command dir_path in
  result ← call command;
  if succeeded result then
    mret (dict_of [(K_SUCCESS, VBool true);
                   (u "新目录", VStr (stdout result))])
  else
    mret (dict_of [(K_SUCCESS, VBool false);
                   (u "目标目录", VStr dir_path);
                   (K_ERROR, VStr (stderr result))]).

Definition read_file_lines
    (file_path : str) (start_line : Z) (end_line : option Z) (encoding : str)
  : pyresult dict :=
  let command := read_file_lines_command file_path start_line end_line in
  result ← call command;
  if succeeded result then
    mret (dict_of [(K_SUCCESS, VBool true);
                   (K_FILE_PATH, VStr file_path);
                   (u "起始行", VInt start_line);
                   (u "结束行", match end_line with
                                | Some e => VInt e
                                | None => VNone
                                end);
                   (K_CONTENT, VStr (stdout result))])
  else
    mret (dict_of [(K_SUCCESS, VBool false);
                   (K_FILE_PATH, VStr file_path);
                   (K_ERROR, VStr (stderr result))]).

Definition search_in_file (file_path pattern : str) (use_regex : bool)
  : pyresult dict :=
  let command := search_in_file_command file_path pattern use_regex in
  result ← call command;
  if succeeded result then
    let lines :=
      if truthy (stdout result)
      then split NEWLINE (strip (stdout result)) else [] in
    mret (dict_of [(K_SUCCESS, VBool true);
                   (K_FILE_PATH, VStr file_path);
                   (u "搜索模式", VStr pattern);
                   (u "匹配行数", VInt (Z.of_nat (length lines)));
                   (u "匹配结果", VList (VStr <$> lines))])
  else
    mret (dict_of [(K_SUCCESS, VBool false);
                   (K_FILE_PATH, VStr file_path);
                   (u "搜索模式", VStr pattern);
                   (K_ERROR, VStr (stderr result))]).

Definition count_lines (file_path : str) : pyresult dict :=
  let command := count_lines_command file_path in
  result ← call command;
  if succeeded result then
    try_except
      (first ← index (split_ws (strip (stdout result))) 0;
       line_count ← py_int first;
       mret (dict_of [(K_SUCCESS, VBool true);
                      (K_FILE_PATH, VStr file_path);
                      (u "行数", VInt line_count)]))
      (λ e, if is_class ValueError e || is_class IndexError e
            then mret (dict_of
                   [(K_SUCCESS, VBool false);
                    (K_FILE_PATH, VStr file_path);
                    (K_ERROR, VStr (u "无法解析行数"))])
            else Raise e)
  else
    mret (dict_of [(K_SUCCESS, VBool false);
                   (K_FILE_PATH, VStr file_path);
                   (K_ERROR, VStr (stderr result))]).

End Operations.

End FileManager.

Import FileManager.

(* ================================================================== *)
(** ** The operations, enumerated

    The request surface ([server.py]) exposes every operation as one named
    call.  The two enumerations below name the calls, so that a property of
    every operation can be stated once. *)
(* ================================================================== *)

Module Surface.

(** The bridge operations that return a [WSLCommandResult]. *)
Inductive bridge_op : Type :=
  | OpSimple (command : str) (timeout : Z)
  | OpAdvanced (command distribution user working_dir shell_type : str)
               (timeout : Z)
  | OpShutdown
  | OpTerminate (distribution : str)
  | OpSetDefault (distribution : str)
  | OpExport (distribution file_path format_type : str)
  | OpImport (distribution install_location file_path : str) (version : Z)
  | OpUnregister (distribution : str)
  | OpStatus
  | OpInstall (distribution : str) (web_download no_launch : bool).

Definition invoke (run : launcher) (op : bridge_op)
  : pyresult WSLCommandResult :=
  match op with
  | OpSimple c t => execute_command run c t
  | OpAdvanced c d us w sh t => execute_command_advanced run c d us w sh t
  | OpShutdown => shutdown_wsl run
  | OpTerminate d => terminate_distribution run d
  | OpSetDefault d => set_default_distribution run d
  | OpExport d f fmt => export_distribution run d f fmt
  | OpImport d loc f v => import_distribution run d loc f v
  | OpUnregister d => unregister_distribution run d
  | OpStatus => get_wsl_status run
  | OpInstall d wd nl => install_distribution run d wd nl
  end.

(** The argument vector and the timeout each operation hands to
    [subprocess.run]. *)
Definition argv_of (op : bridge_op) : list str :=
  match op with
  | OpSimple c _ => [wsl_path; u "sh"; u "-c"; c]
  | OpAdvanced c d us w sh _ => advanced_cmd_list c d us w sh
  | OpShutdown => [wsl_path; u "--shutdown"]
  | OpTerminate d => [wsl_path; u "-t"; d]
  | OpSetDefault d => [wsl_path; u "-s"; d]
  | OpExport d f fmt => [wsl_path; u "--export"; d; f; u "--format"; fmt]
  | OpImport d loc f v =>
      [wsl_path; u "--import"; d; loc; f; u "--version"; str_of_int v]
  | OpUnregister d => [wsl_path; u "--unregister"; d]
  | OpStatus => [wsl_path; u "--status"]
  | OpInstall d wd nl => install_cmd_list d wd nl
  end.

Definition timeout_of (op : bridge_op) : Z :=
  match op with
  | OpSimple _ t | OpAdvanced _ _ _ _ _ t => t
  | OpShutdown | OpTerminate _ | OpSetDefault _ | OpStatus => 10
  | OpUnregister _ => 30
  | OpExport _ _ _ | OpImport _ _ _ _ | OpInstall _ _ _ => 300
  end%Z.

(** The operations with a handler of their own for a timeout. *)
Definition names_timeout (op : bridge_op) : bool :=
  match op with
  | OpSimple _ _ | OpAdvanced _ _ _ _ _ _ => true
  | _ => false
  end.

(** The operations whose stdout field is the launcher's stdout. *)
Definition passes_stdout (op : bridge_op) : bool :=
  match op with
  | OpSimple _ _ | OpAdvanced _ _ _ _ _ _ | OpStatus => true
  | _ => false
  end.

(** The fixed text the other operations put into stdout on exit code 0. *)
Definition success_message (op : bridge_op) : str :=
  match op with
  | OpShutdown => u "WSL已关闭"
  | OpTerminate d => u "发行版 " ++ d ++ u " 已终止"
  | OpSetDefault d => d ++ u " 已设为默认发行版"
  | OpExport _ f _ => u "发行版已导出到 " ++ f
  | OpImport d _ _ _ => u "发行版 " ++ d ++ u " 已导入"
  | OpUnregister d => u "发行版 " ++ d ++ u " 已注销"
  | OpInstall _ _ _ => u "正在安装发行版..."
  | OpSimple _ _ | OpAdvanced _ _ _ _ _ _ | OpStatus => []
  end.

(** The environment directory operations. *)
Inductive file_op : Type :=
  | FRead (file_path encoding : str)
  | FWrite (file_path content encoding : str)
  | FAppend (file_path content encoding : str)
  | FMkdir (dir_path : str) (parents : bool)
  | FList (dir_path : str)
  | FDelete (file_path : str) (recursive : bool)
  | FCopy (source destination : str) (recursive : bool)
  | FMove (source destination : str)
  | FInfo (file_path : str)
  | FExists (file_path : str)
  | FIsDir (path : str)
  | FIsFile (path : str)
  | FPwd
  | FChdir (dir_path : str)
  | FReadLines (file_path : str) (start_line : Z) (end_line : option Z)
               (encoding : str)
  | FSearch (file_path pattern : str) (use_regex : bool)
  | FCount (file_path : str).

Definition perform (run : launcher) (int_of_str : str → option Z)
    (op : file_op) : pyresult dict :=
  match op with
  | FRead p e => read_file run p e
  | FWrite p c e => write_file run p c e
  | FAppend p c e => append_to_file run p c e
  | FMkdir d ps => create_directory run d ps
  | FList d => list_directory run d
  | FDelete p r => delete_file run p r
  | FCopy a b r => copy_file run a b r
  | FMove a b => move_file run a b
  | FInfo p => get_file_info run p
  | FExists p => file_exists run p
  | FIsDir p => is_directory run p
  | FIsFile p => is_file run p
  | FPwd => get_current_directory run
  | FChdir d => change_directory run d
  | FReadLines p a b e => read_file_lines run p a b e
  | FSearch p pat r => search_in_file run p pat r
  | FCount p => count_lines run int_of_str p
  end.

Definition command_of (op : file_op) : str :=
  match op with
  | FRead p _ => read_file_command p
  | FWrite p c _ => write_file_command p c
  | FAppend p c _ => append_to_file_command p c
  | FMkdir d ps => create_directory_command d ps
  | FList d => list_directory_command d
  | FDelete p r => delete_file_command p r
  | FCopy a b r => copy_file_command a b r
  | FMove a b => move_file_command a b
  | FInfo p => get_file_info_command p
  | FExists p => file_exists_command p
  | FIsDir p => is_directory_command p
  | FIsFile p => is_file_command p
  | FPwd => get_current_directory_command
  | FChdir d => change_directory_command d
  | FReadLines p a b _ => read_file_lines_command p a b
  | FSearch p pat r => search_in_file_command p pat r
  | FCount p => count_lines_command p
  end.

(** How an operation turns the outcome into its success flag. *)
Inductive file_op_kind : Type :=
  | ByExitCode     (* success is exit code 0 *)
  | AlwaysSuccess  (* the three existence and type checks *)
  | ParsesCount.   (* [count_lines], which also parses stdout *)

Definition kind_of (op : file_op) : file_op_kind :=
  match op with
  | FExists _ | FIsDir _ | FIsFile _ => AlwaysSuccess
  | FCount _ => ParsesCount
  | _ => ByExitCode
  end.

(** The flag and the error detail of a returned dictionary. *)
Definition reports_success (d : dict) : Prop := d !! K_SUCCESS = Some (VBool true).
Definition reports_failure (d : dict) : Prop := d !! K_SUCCESS = Some (VBool false).
Definition error_detail (d : dict) : option value := d !! K_ERROR.

(** What one line of a listing adds to the result of its loop. *)
Definition line_entries (line : str) : list value :=
  match listing_step [] line with Return l => l | Raise _ => [] end.

Definition distro_entries (line : str) : list dict :=
  match distro_step [] line with Return l => l | Raise _ => [] end.

Definition online_entries (line : str) : list str := online_step [] line.

(** The grammar of the two canonical path forms of the specification. *)
Definition is_upper_letter (c : char) : bool := (65 <=? c) && (c <=? 90).
Definition is_lower_letter (c : char) : bool := (97 <=? c) && (c <=? 122).
Definition is_letter (c : char) : bool := is_upper_letter c || is_lower_letter c.

(** A path segment: not empty, and free of both separators. *)
Definition is_segment (s : str) : Prop :=
  s ≠ [] ∧ (SLASH ∉ s) ∧ (BACKSLASH ∉ s).

(** [X:\a\b]: a letter, a colon, then each segment led by a backslash. *)
Definition host_path (letter : char) (segments : list str) : str :=
  letter :: COLON :: flat_map (λ seg, BACKSLASH :: seg) segments.

(** [/mnt/x/a/b] *)
Definition guest_path (letter : char) (segments : list str) : str :=
  u "/mnt/" ++ (letter :: flat_map (λ seg, SLASH :: seg) segments).

(** An input has a drive-letter-colon prefix. *)
Definition has_drive_prefix (s : str) : Prop :=
  ∃ c rest, s = c :: COLON :: rest ∧ is_letter c = true.

(** A string of white space only. *)
Definition blank (s : str) : Prop := Forall (λ c, isspace c = true) s.

(** A string is trimmed: white space neither leads nor ends it. *)
Definition trimmed (s : str) : Prop :=
  (∀ c t, s = c :: t → isspace c = false)
  ∧ (∀ t c, s = t ++ [c] → isspace c = false).

(** One character for another, as [replace] does for strings of length
    one. *)
Definition swap_char (a b c : char) : char := if c =? a then b else c.

(** No two slashes in a row. *)
Fixpoint has_doubled_slash (s : str) : bool :=
  match s with
  | c :: (c' :: _) as r => ((c =? SLASH) && (c' =? SLASH)) || has_doubled_slash r
  | _ => false
  end.

End Surface.

Import Surface.

(* ================================================================== *)
(** ** [wsl_mcp/core/__init__.py]

    The package file holds an earlier copy of [WSLTool].  Its
    [execute_command], queries and path conversions are those of [wsl.py];
    the one method of its own selects a distribution for the simple run. *)
(* ================================================================== *)

Module CoreInit.

(** [cmd_list] of [execute_command_with_distro], statement by statement. *)
Definition distro_cmd_list (command distribution : str) : list str :=
  let cmd_list := [wsl_path] in
  let cmd_list :=
    if truthy distribution then cmd_list ++ [u "-d"; distribution] else cmd_list in
  cmd_list ++ [u "sh"; u "-c"; command].

Definition execute_command_with_distro
    (run : launcher) (command distribution : str) (timeout : Z)
  : pyresult WSLCommandResult :=
  try_except
    (let cmd_list := distro_cmd_list command distribution in
     result ← run cmd_list timeout;
     mret (mkResult (cp_returncode result)
                    (strip (cp_stdout result))
                    (strip (cp_stderr result))))
    on_timeout_or_error.

End CoreInit.

Import CoreInit.

(* ================================================================== *)
(** ** [wsl_mcp/server.py]

    Every tool calls one method of [wsl_tool] or one function of the file
    manager and returns a dictionary.  The decorator [@mcp.tool()] registers
    the function and leaves its body as it is. *)
(* ================================================================== *)

Module Server.

Definition K_COMMAND : str := u "命令".
Definition K_OUTPUT : str := u "输出".
Definition K_RETURNCODE : str := u "返回码".
Definition K_DISTRIBUTION : str := u "发行版".
Definition K_COUNT : str := u "发行版数量".
Definition K_LIST : str := u "发行版列表".
Definition T_DEFAULT : str := u "默认".

(** [a or b] on two strings. *)
Definition str_or (a b : str) : str := if truthy a then a else b.

(** [result.returncode == 0] *)
Definition exit_ok (result : WSLCommandResult) : bool :=
  bool_decide (returncode result = 0%Z).

Section Tools.
Variable run : launcher.
Variable int_of_str : str → option Z.
Variable unicode_lower unicode_upper : char → str.

Definition execute_wsl_command (command : str) (timeout : Z) : pyresult dict :=
  result ← Bridge.execute_command run command timeout;
  mret (dict_of [(K_SUCCESS, VBool (exit_ok result));
                 (K_COMMAND, VStr command);
                 (K_OUTPUT, VStr (stdout result));
                 (K_ERROR, VStr (stderr result));
                 (K_RETURNCODE, VInt (returncode result))]).

Definition execute_wsl_command_advanced
    (command distribution user working_dir shell_type : str) (timeout : Z)
  : pyresult dict :=
  result ← Bridge.execute_command_advanced run command distribution user working_dir
             shell_type timeout;
  mret (dict_of [(K_SUCCESS, VBool (exit_ok result));
                 (K_COMMAND, VStr command);
                 (K_DISTRIBUTION, VStr (str_or distribution T_DEFAULT));
                 (u "用户", VStr (str_or user T_DEFAULT));
                 (u "工作目录", VStr (str_or working_dir T_DEFAULT));
                 (K_OUTPUT, VStr (stdout result));
                 (K_ERROR, VStr (stderr result));
                 (K_RETURNCODE, VInt (returncode result))]).

Definition shutdown_wsl : pyresult dict :=
  result ← Bridge.shutdown_wsl run;
  mret (dict_of [(K_SUCCESS, VBool (exit_ok result));
                 (K_MESSAGE, VStr (stdout result));
                 (K_ERROR, VStr (stderr result))]).

Definition terminate_wsl_distribution (distribution : str) : pyresult dict :=
  result ← Bridge.terminate_distribution run distribution;
  mret (dict_of [(K_SUCCESS, VBool (exit_ok result));
                 (K_DISTRIBUTION, VStr distribution);
                 (K_MESSAGE, VStr (stdout result));
                 (K_ERROR, VStr (stderr result))]).

Definition set_default_wsl_distribution (distribution : str) : pyresult dict :=
  result ← Bridge.set_default_distribution run distribution;
  mret (dict_of [(K_SUCCESS, VBool (exit_ok result));
                 (K_DISTRIBUTION, VStr distribution);
                 (K_MESSAGE, VStr (stdout result));
                 (K_ERROR, VStr (stderr result))]).

Definition export_wsl_distribution (distribution file_path format_type : str)
  : pyresult dict :=
  result ← Bridge.export_distribution run distribution file_path format_type;
  mret (dict_of [(K_SUCCESS, VBool (exit_ok result));
                 (K_DISTRIBUTION, VStr distribution);
                 (K_FILE_PATH, VStr file_path);
                 (u "格式", VStr format_type);
                 (K_MESSAGE, VStr (stdout result));
                 (K_ERROR, VStr (stderr result))]).

Definition import_wsl_distribution
    (distribution install_location file_path : str) (version : Z)
  : pyresult dict :=
  result ← Bridge.import_distribution run distribution install_location file_path version;
  mret (dict_of [(K_SUCCESS, VBool (exit_ok result));
                 (K_DISTRIBUTION, VStr distribution);
                 (u "安装位置", VStr install_location);
                 (u "版本", VInt version);
                 (K_MESSAGE, VStr (stdout result));
                 (K_ERROR, VStr (stderr result))]).

Definition unregister_wsl_distribution (distribution : str) : pyresult dict :=
  result ← Bridge.unregister_distribution run distribution;
  mret (dict_of [(K_SUCCESS, VBool (exit_ok result));
                 (K_DISTRIBUTION, VStr distribution);
                 (K_MESSAGE, VStr (stdout result));
                 (K_ERROR, VStr (stderr result))]).

Definition get_wsl_status : pyresult dict :=
  result ← Bridge.get_wsl_status run;
  mret (dict_of [(K_SUCCESS, VBool (exit_ok result));
                 (u "状态信息", VStr (stdout result));
                 (K_ERROR, VStr (stderr result))]).

Definition list_wsl_online_distributions : pyresult dict :=
  distros ← Bridge.list_online_distributions run;
  mret (dict_of [(K_SUCCESS, VBool true);
                 (K_COUNT, VInt (Z.of_nat (length distros)));
                 (K_LIST, VList (VStr <$> distros))]).

Definition install_wsl_distribution
    (distribution : str) (web_download no_launch : bool) : pyresult dict :=
  result ← Bridge.install_distribution run distribution web_download no_launch;
  mret (dict_of [(K_SUCCESS, VBool (exit_ok result));
                 (K_DISTRIBUTION, VStr (str_or distribution T_DEFAULT));
                 (K_MESSAGE, VStr (stdout result));
                 (K_ERROR, VStr (stderr result))]).

Definition get_wsl_version : pyresult dict :=
  version ← Bridge.get_wsl_version run;
  mret (dict_of [(K_SUCCESS, VBool true);
                 (u "版本信息", VStr version)]).

Definition list_wsl_distributions : pyresult dict :=
  distros ← Bridge.list_distributions run;
  mret (dict_of [(K_SUCCESS, VBool true);
                 (K_COUNT, VInt (Z.of_nat (length distros)));
                 (K_LIST, VList (VDict <$> distros))]).

Definition get_default_distribution : pyresult dict :=
  distro ← Bridge.get_default_distribution run;
  mret (dict_of [(K_SUCCESS, VBool true);
                 (u "默认发行版", VStr distro)]).

Definition convert_windows_to_wsl_path (windows_path : str) : pyresult dict :=
  wsl_path ← Bridge.convert_windows_path unicode_lower windows_path;
  mret (dict_of [(K_SUCCESS, VBool true);
                 (u "Windows路径", VStr windows_path);
                 (u "WSL路径", VStr wsl_path)]).

Definition convert_wsl_to_windows_path (wsl_path : str) : pyresult dict :=
  windows_path ← Bridge.convert_to_windows_path unicode_upper wsl_path;
  mret (dict_of [(K_SUCCESS, VBool true);
                 (u "WSL路径", VStr wsl_path);
                 (u "Windows路径", VStr windows_path)]).

(** The file tools hand their arguments to the file manager and return its
    dictionary. *)
Definition read_wsl_file (file_path encoding : str) : pyresult dict :=
  FileManager.read_file run file_path encoding.
Definition write_wsl_file (file_path content encoding : str) : pyresult dict :=
  FileManager.write_file run file_path content encoding.
Definition append_to_wsl_file (file_path content encoding : str) : pyresult dict :=
  FileManager.append_to_file run file_path content encoding.
Definition create_wsl_directory (dir_path : str) (parents : bool) : pyresult dict :=
  FileManager.create_directory run dir_path parents.
Definition list_wsl_directory (dir_path : str) : pyresult dict :=
  FileManager.list_directory run dir_path.
Definition delete_wsl_path (file_path : str) (recursive : bool) : pyresult dict :=
  FileManager.delete_file run file_path recursive.
Definition copy_wsl_file (source destination : str) (recursive : bool)
  : pyresult dict :=
  FileManager.copy_file run source destination recursive.
Definition move_wsl_file (source destination : str) : pyresult dict :=
  FileManager.move_file run source destination.
Definition get_wsl_file_info (file_path : str) : pyresult dict :=
  FileManager.get_file_info run file_path.
Definition check_wsl_path_exists (file_path : str) : pyresult dict :=
  FileManager.file_exists run file_path.
Definition is_wsl_directory (path : str) : pyresult dict :=
  FileManager.is_directory run path.
Definition is_wsl_file (path : str) : pyresult dict :=
  FileManager.is_file run path.
Definition get_wsl_current_directory : pyresult dict :=
  FileManager.get_current_directory run.
Definition change_wsl_directory (dir_path : str) : pyresult dict :=
  FileManager.change_directory run dir_path.
Definition read_wsl_file_lines
    (file_path : str) (start_line : Z) (end_line : option Z) (encoding : str)
  : pyresult dict :=
  FileManager.read_file_lines run file_path start_line end_line encoding.
Definition search_in_wsl_file (file_path pattern : str) (use_regex : bool)
  : pyresult dict :=
  FileManager.search_in_file run file_path pattern use_regex.
Definition count_wsl_file_lines (file_path : str) : pyresult dict :=
  FileManager.count_lines run int_of_str file_path.

End Tools.

End Server.

(* ================================================================== *)
(** ** Notions used to state the further properties *)
(* ================================================================== *)

Module Notions.

(** The sequence [escape_quotes] writes for one single quote, and the
    replacement that undoes it. *)
Definition ESCAPED_QUOTE : str := [QUOTE; DQUOTE; QUOTE; DQUOTE; QUOTE].

Definition unescape_quotes (s : str) : str := replace s ESCAPED_QUOTE [QUOTE].

(** What [replace] with an [old] of one character does to one character. *)
Definition expand_char (a : char) (new : str) (c : char) : str :=
  if c =? a then new else [c].

(** A string free of white space. *)
Definition no_space (s : str) : Prop := Forall (λ c, isspace c = false) s.

(** The tool of the server for each bridge operation. *)
Definition bridge_tool (run : launcher) (op : bridge_op) : pyresult dict :=
  match op with
  | OpShutdown => Server.shutdown_wsl run
  | OpTerminate d => Server.terminate_wsl_distribution run d
  | OpSetDefault d => Server.set_default_wsl_distribution run d
  | OpExport d f fmt => Server.export_wsl_distribution run d f fmt
  | OpImport d loc f v => Server.import_wsl_distribution run d loc f v
  | OpUnregister d => Server.unregister_wsl_distribution run d
  | OpInstall d wd nl => Server.install_wsl_distribution run d wd nl
  | OpStatus => Server.get_wsl_status run
  | OpSimple c t => Server.execute_wsl_command run c t
  | OpAdvanced c d us w sh t => Server.execute_wsl_command_advanced run c d us w sh t
  end.

(** The file tool of the server for an operation of the file manager. *)
Definition file_tool (run : launcher) (int_of_str : str → option Z)
    (op : file_op) : pyresult dict :=
  match op with
  | FRead p e => Server.read_wsl_file run p e
  | FWrite p c e => Server.write_wsl_file run p c e
  | FAppend p c e => Server.append_to_wsl_file run p c e
  | FMkdir d ps => Server.create_wsl_directory run d ps
  | FList d => Server.list_wsl_directory run d
  | FDelete p r => Server.delete_wsl_path run p r
  | FCopy a b r => Server.copy_wsl_file run a b r
  | FMove a b => Server.move_wsl_file run a b
  | FInfo p => Server.get_wsl_file_info run p
  | FExists p => Server.check_wsl_path_exists run p
  | FIsDir p => Server.is_wsl_directory run p
  | FIsFile p => Server.is_wsl_file run p
  | FPwd => Server.get_wsl_current_directory run
  | FChdir d => Server.change_wsl_directory run d
  | FReadLines p a b e => Server.read_wsl_file_lines run p a b e
  | FSearch p pat r => Server.search_in_wsl_file run p pat r
  | FCount p => Server.count_wsl_file_lines run int_of_str p
  end.

(** The key under which a bridge tool returns the stdout of the outcome. *)
Definition stdout_key (op : bridge_op) : str :=
  match op with
  | OpSimple _ _ | OpAdvanced _ _ _ _ _ _ => Server.K_OUTPUT
  | OpStatus => u "状态信息"
  | _ => K_MESSAGE
  end.

(** The key under which a file operation returns the text of stdout, for
    the operations that return it as it is. *)
Definition payload_key (op : file_op) : option str :=
  match op with
  | FRead _ _ | FReadLines _ _ _ _ => Some K_CONTENT
  | FInfo _ => Some (u "详细信息")
  | FPwd => Some (u "当前目录")
  | FChdir _ => Some (u "新目录")
  | _ => None
  end.

(** The four queries of the bridge that return a text or a list, with the
    tool of the server for each, the argument vector and the timeout. *)
Inductive query : Type := QVersion | QDistributions | QOnline | QDefault.

Definition query_tool (run : launcher) (q : query) : pyresult dict :=
  match q with
  | QVersion => Server.get_wsl_version run
  | QDistributions => Server.list_wsl_distributions run
  | QOnline => Server.list_wsl_online_distributions run
  | QDefault => Server.get_default_distribution run
  end.

Definition query_argv (q : query) : list str :=
  match q with
  | QVersion => [wsl_path; u "--version"]
  | QDistributions => [wsl_path; u "-l"; u "--verbose"]
  | QOnline => [wsl_path; u "-l"; u "--online"]
  | QDefault => [wsl_path; u "-e"; u "echo"; u "$WSL_DISTRO_NAME"]
  end.

Definition query_timeout (q : query) : Z :=
  match q with QOnline => 30 | _ => 10 end%Z.

(** The sentinel and the key of each of the three checks. *)
Inductive check : Type := CheckExists | CheckIsDir | CheckIsFile.

Definition check_run (run : launcher) (c : check) (path : str) : pyresult dict :=
  match c with
  | CheckExists => file_exists run path
  | CheckIsDir => is_directory run path
  | CheckIsFile => is_file run path
  end.

Definition check_command (c : check) (path : str) : str :=
  match c with
  | CheckExists => file_exists_command path
  | CheckIsDir => is_directory_command path
  | CheckIsFile => is_file_command path
  end.

Definition check_sentinel (c : check) : str :=
  match c with
  | CheckExists => u "exists"
  | CheckIsDir => u "dir"
  | CheckIsFile => u "file"
  end.

Definition check_key (c : check) : str :=
  match c with
  | CheckExists => u "存在"
  | CheckIsDir => u "是目录"
  | CheckIsFile => u "是文件"
  end.

(** The check an operation of the enumeration is, with its path. *)
Definition check_of (op : file_op) : option (check * str) :=
  match op with
  | FExists p => Some (CheckExists, p)
  | FIsDir p => Some (CheckIsDir, p)
  | FIsFile p => Some (CheckIsFile, p)
  | _ => None
  end.

End Notions.

Import Notions.

(* ================================================================== *)
(** ** Sample launchers and inputs, used by the examples below *)
(* ================================================================== *)

Module Samples.

(** A launcher whose child process always completes the same way. *)
Definition completes_with (rc : Z) (out err : str) : launcher :=
  λ _ _, Return (Completed rc out err).

(** A launcher on which every call raises. *)
Definition raises (e : exn) : launcher := λ _ _, Raise e.

Definition sample_timeout : exn :=
  Exn TimeoutExpired (u "Command '['wsl.exe', '--version']' timed out after 10 seconds").

Definition sample_launch_error : exn :=
  Exn OSError (u "[WinError 2] The system cannot find the file specified").

(** Case tables for the examples: nothing beyond ASCII changes case. *)
Definition no_case : char → str := λ c, [c].

(** A parser of decimal digits, standing for [int] in the examples. *)
Definition digits_only (s : str) : option Z :=
  if forallb (λ c, (48 <=? c) && (c <=? 57)) s && truthy s
  then Some (foldl (λ acc c, acc * 10 + Z.of_N (c - 48))%Z 0%Z s)
  else None.

(** The stdout of [shutdown_wsl] when the child prints a line of its own. *)
Definition run_shutdown_stdout : pyresult str :=
  r ← shutdown_wsl
        (completes_with 0%Z (u " The operation completed successfully. ") []);
  mret (stdout r).

(** An [ls -la] listing: a total line, a directory, a file whose name
    holds a space, and a line of four tokens. *)
Definition sample_listing : str :=
  u "total 8
drwxr-xr-x 2 user user 4096 Jan  1 12:00 docs
-rw-r--r-- 1 user user   12 Jan  1 12:00 my notes.txt
lrwx 1 user user".

(** The output of the verbose listing: a header, the default distribution
    with its mark, and a line without a version. *)
Definition sample_distributions : str :=
  u "  NAME      STATE           VERSION
* Ubuntu    Running         2
  Debian    Stopped".

(** What [list_distributions] makes of it: the mark is taken for the
    name. *)
Definition sample_descriptors : list dict :=
  [dict_of [(u "名称", VStr (u "*"));
            (u "状态", VStr (u "Ubuntu"));
            (u "版本", VStr (u "Running"))];
   dict_of [(u "名称", VStr (u "Debian"));
            (u "状态", VStr (u "Stopped"));
            (u "版本", VStr [])]].

(** Three outcomes of the bridge: of [echo hello], of a listing that
    failed, and of a distribution that was terminated. *)
Definition sample_hello : WSLCommandResult := mkResult 0%Z (u "hello") [].

Definition sample_ls_failure : WSLCommandResult :=
  mkResult 2%Z [] (u "ls: cannot access").

Definition sample_terminated : WSLCommandResult :=
  mkResult 0%Z (u "发行版 Ubuntu 已终止") [].

(** Two matching lines, as [grep -n] prints them. *)
Definition sample_matches : str :=
  u "3:alpha
7:alpha beta".

End Samples.

Import Samples.

Arguments isspace : simpl never.
Arguments u : simpl never.
Arguments dict_of : simpl never.

(* ================================================================== *)
(** ** Facts about the string operations *)
(* ================================================================== *)

Section StringFacts.

Lemma lstrip_decompose (s : str) :
  ∃ l, s = l ++ lstrip s ∧ blank l.
Proof.
  induction s as [|c r [l [Hr Hl]]]; simpl.
  - exists []. split; [done | constructor].
  - destruct (isspace c) eqn:Hc.
    + exists (c :: l). split; [simpl; congruence | by constructor].
    + exists []. split; [done | constructor].
Qed.

Lemma lstrip_head (s : str) c t : lstrip s = c :: t → isspace c = false.
Proof.
  induction s as [|a r IH]; simpl; [done|].
  destruct (isspace a) eqn:Ha; [done|].
  intros [= -> _]. exact Ha.
Qed.

Lemma lstrip_blank (s : str) : blank s → lstrip s = [].
Proof.
  induction 1 as [|c r Hc _ IH]; simpl; [done|]. by rewrite Hc.
Qed.

Lemma rstrip_decompose (s : str) :
  ∃ r, s = rstrip s ++ r ∧ blank r.
Proof.
  destruct (lstrip_decompose (rev s)) as [l [Hs Hl]].
  exists (rev l). split.
  - unfold rstrip. rewrite <- rev_app_distr, <- Hs. by rewrite rev_involutive.
  - unfold blank. by apply Forall_rev.
Qed.

Lemma rstrip_last (s : str) t c : rstrip s = t ++ [c] → isspace c = false.
Proof.
  unfold rstrip. intros H.
  apply (f_equal (@rev char)) in H.
  rewrite rev_involutive, rev_app_distr in H. simpl in H.
  by apply lstrip_head in H.
Qed.

(** [strip] removes white space at both ends and nothing else. *)
Lemma strip_decompose (s : str) :
  ∃ l r, s = l ++ strip s ++ r ∧ blank l ∧ blank r.
Proof.
  destruct (lstrip_decompose s) as [l [Hs Hl]].
  destruct (rstrip_decompose (lstrip s)) as [r [Hs' Hr]].
  exists l, r. unfold strip. by rewrite <- Hs', <- Hs.
Qed.

Lemma strip_trimmed (s : str) : trimmed (strip s).
Proof.
  split.
  - intros c t H. unfold strip in H.
    destruct (rstrip_decompose (lstrip s)) as [r [Hs _]].
    rewrite H in Hs. simpl in Hs. by apply lstrip_head in Hs.
  - intros t c H. by apply rstrip_last in H.
Qed.

Lemma strip_blank (s : str) : blank s → strip s = [].
Proof. intros H. unfold strip. by rewrite (lstrip_blank s H). Qed.

Lemma split_ws_not_blank (s : str) : ¬ blank s → split_ws s ≠ [].
Proof.
  induction s as [|c r IH]; intros Hs.
  - destruct Hs. constructor.
  - simpl. destruct (isspace c) eqn:Hc.
    + apply IH. intros Hr. apply Hs. by constructor.
    + destruct r as [|c' r']; [done|].
      destruct (isspace c'); [done|]. by destruct (split_ws (c' :: r')).
Qed.

Lemma blank_dec (s : str) : blank s ∨ ¬ blank s.
Proof.
  unfold blank. destruct (decide (Forall (λ c, isspace c = true) s)); auto.
Qed.

(** A line that [strip] leaves non-empty has a first token. *)
Lemma split_ws_of_nonblank_line (line : str) :
  strip line ≠ [] → ∃ name rest, split_ws line = name :: rest.
Proof.
  intros H. destruct (blank_dec line) as [Hb | Hb].
  - by rewrite strip_blank in H.
  - apply split_ws_not_blank in Hb.
    destruct (split_ws line) as [|name rest]; [done | eauto].
Qed.

(** Every token is non-empty and free of white space. *)
Lemma split_ws_tokens (s : str) :
  Forall (λ t, t ≠ [] ∧ Forall (λ c, isspace c = false) t) (split_ws s).
Proof.
  induction s as [|c r IH]; simpl; [constructor|].
  destruct (isspace c) eqn:Hc; [done|].
  destruct r as [|c' r']; [repeat constructor; done|].
  destruct (isspace c') eqn:Hc'.
  - constructor; [|done]. split; [done|]. by repeat constructor.
  - destruct (split_ws (c' :: r')) as [|t ts]; [repeat constructor; done|].
    inversion IH as [|? ? [Ht1 Ht2] Hts]; subst.
    constructor; [|done]. split; [done|]. by constructor.
Qed.

End StringFacts.

(* ================================================================== *)
(** ** Reading a dictionary display *)
(* ================================================================== *)

Section DictFacts.

Lemma foldl_insert_lookup (kvs : list (str * value)) (d : dict) (k : str) :
  foldl (λ d kv, <[kv.1 := kv.2]> d) d kvs !! k
    = match assoc_last k kvs with Some w => Some w | None => d !! k end.
Proof.
  revert d. induction kvs as [|[k' v] rest IH]; intros d; simpl; [done|].
  rewrite IH. destruct (assoc_last k rest) as [w|]; [done|].
  cbn [fst snd]. case_bool_decide as Hk.
  - subst k'. apply lookup_insert_eq.
  - by apply lookup_insert_ne.
Qed.

Lemma dict_of_lookup (kvs : list (str * value)) (k : str) :
  dict_of kvs !! k = assoc_last k kvs.
Proof.
  unfold dict_of. rewrite foldl_insert_lookup.
  by destruct (assoc_last k kvs).
Qed.

Lemma success_excludes_failure (d : dict) :
  reports_failure d → ¬ reports_success d.
Proof. unfold reports_failure, reports_success. congruence. Qed.

End DictFacts.

(** Reads a key in a dictionary display: only the comparisons of the keys,
    which are literals, are computed. *)
Ltac dict_lookup :=
  unfold reports_success, reports_failure, error_detail;
  rewrite !dict_of_lookup; cbn [assoc_last];
  repeat match goal with
         | |- context [bool_decide (?a = ?b)] =>
             let v := eval vm_compute in (bool_decide (a = b)) in
             change (bool_decide (a = b)) with v
         end;
  lazy beta iota; try reflexivity.

(* ================================================================== *)
(** ** The command bridge *)
(* ================================================================== *)

Section BridgeFacts.

Variable run : launcher.

Lemma truthy_false (s : str) : truthy s = false ↔ s = [].
Proof. by destruct s. Qed.

Lemma truthy_true (s : str) : truthy s = true ↔ s ≠ [].
Proof. by destruct s. Qed.

(** Every operation of the enumeration hands [argv_of] and [timeout_of]
    to the launcher, once, and builds its outcome from the answer. *)
Lemma invoke_completed (op : bridge_op) (cp : CompletedProcess) :
  run (argv_of op) (timeout_of op) = Return cp →
  invoke run op =
    Return (mkResult (cp_returncode cp)
              (if passes_stdout op then strip (cp_stdout cp)
               else if bool_decide (cp_returncode cp = 0%Z)
                    then success_message op else [])
              (strip (cp_stderr cp))).
Proof.
  intros H.
  destruct op; simpl in *;
    unfold execute_command, execute_command_advanced, shutdown_wsl,
      terminate_distribution, set_default_distribution, export_distribution,
      import_distribution, unregister_distribution, get_wsl_status,
      install_distribution, lifecycle;
    simpl; by rewrite H.
Qed.

Lemma invoke_raised (op : bridge_op) (e : exn) :
  run (argv_of op) (timeout_of op) = Raise e →
  invoke run op =
    Return (mkResult (-1) []
              (if names_timeout op && is_class TimeoutExpired e
               then msg_timeout else exn_str e)).
Proof.
  intros H.
  destruct op; simpl in *;
    unfold execute_command, execute_command_advanced, shutdown_wsl,
      terminate_distribution, set_default_distribution, export_distribution,
      import_distribution, unregister_distribution, get_wsl_status,
      install_distribution, lifecycle;
    simpl; rewrite H; simpl; try done.
  all: unfold on_timeout_or_error, is_class; by destruct (exn_class_of e).
Qed.

Lemma invoke_returns (op : bridge_op) : ∃ r, invoke run op = Return r.
Proof.
  destruct (run (argv_of op) (timeout_of op)) as [cp | e] eqn:H.
  - eexists. by apply invoke_completed.
  - eexists. by apply invoke_raised.
Qed.

End BridgeFacts.

(** C7.  The argument vector of the advanced run is the launcher, then
    [-d distribution], [-u user], [--cd working_dir] and
    [--shell-type shell_type], in this order, each present exactly when its
    option is not empty, then [--exec sh -c command]; this vector is what
    the launcher is run with. *)
Theorem advanced_run_argument_vector
    (run : launcher)
    (command distribution user working_dir shell_type : str) (timeout : Z) :
  ∃ d_flag u_flag cd_flag sh_flag : list str,
    advanced_cmd_list command distribution user working_dir shell_type
      = [wsl_path] ++ d_flag ++ u_flag ++ cd_flag ++ sh_flag
          ++ [u "--exec"; u "sh"; u "-c"; command]
    ∧ (distribution ≠ [] → d_flag = [u "-d"; distribution])
    ∧ (distribution = [] → d_flag = [])
    ∧ (user ≠ [] → u_flag = [u "-u"; user])
    ∧ (user = [] → u_flag = [])
    ∧ (working_dir ≠ [] → cd_flag = [u "--cd"; working_dir])
    ∧ (working_dir = [] → cd_flag = [])
    ∧ (shell_type ≠ [] → sh_flag = [u "--shell-type"; shell_type])
    ∧ (shell_type = [] → sh_flag = [])
    ∧ (∀ cp,
         run ([wsl_path] ++ d_flag ++ u_flag ++ cd_flag ++ sh_flag
                ++ [u "--exec"; u "sh"; u "-c"; command]) timeout = Return cp →
         execute_command_advanced run command distribution user working_dir
             shell_type timeout
           = Return (mkResult (cp_returncode cp) (strip (cp_stdout cp))
                       (strip (cp_stderr cp)))).
Proof.
  exists (if truthy distribution then [u "-d"; distribution] else []),
         (if truthy user then [u "-u"; user] else []),
         (if truthy working_dir then [u "--cd"; working_dir] else []),
         (if truthy shell_type then [u "--shell-type"; shell_type] else []).
  assert (Hvec :
    advanced_cmd_list command distribution user working_dir shell_type
      = [wsl_path] ++ (if truthy distribution then [u "-d"; distribution] else [])
          ++ (if truthy user then [u "-u"; user] else [])
          ++ (if truthy working_dir then [u "--cd"; working_dir] else [])
          ++ (if truthy shell_type then [u "--shell-type"; shell_type] else [])
          ++ [u "--exec"; u "sh"; u "-c"; command]).
  { unfold advanced_cmd_list.
    destruct (truthy distribution), (truthy user), (truthy working_dir),
      (truthy shell_type); reflexivity. }
  split; [exact Hvec|].
  split; [by destruct distribution|]. split; [by intros ->|].
  split; [by destruct user|]. split; [by intros ->|].
  split; [by destruct working_dir|]. split; [by intros ->|].
  split; [by destruct shell_type|]. split; [by intros ->|].
  intros cp Hrun. rewrite <- Hvec in Hrun.
  apply (invoke_completed run
           (OpAdvanced command distribution user working_dir shell_type timeout)).
  exact Hrun.
Qed.

(** With every option left empty the vector is the launcher and the tail;
    with the distribution and the directory given, their two flags appear. *)
Lemma advanced_run_argument_vector_witness :
  advanced_cmd_list (u "ls") [] [] [] []
    = [u "wsl.exe"; u "--exec"; u "sh"; u "-c"; u "ls"]
  ∧ advanced_cmd_list (u "ls") (u "Ubuntu") [] (u "~") []
    = [u "wsl.exe"; u "-d"; u "Ubuntu"; u "--cd"; u "~";
       u "--exec"; u "sh"; u "-c"; u "ls"]
  ∧ execute_command_advanced (completes_with 0%Z (u " hello ") [])
      (u "ls") (u "Ubuntu") [] (u "~") [] 5%Z
    = Return (mkResult 0%Z (u "hello") []).
Proof.
  destruct (advanced_run_argument_vector (completes_with 0%Z (u " hello ") [])
              (u "ls") (u "Ubuntu") [] (u "~") [] 5%Z)
    as (d & us & cd & sh & Hvec & Hd & _ & _ & Hu & Hcd & _ & _ & Hsh & Hrun).
  split; [reflexivity|]. split; [reflexivity|].
  rewrite (Hd ltac:(discriminate)), (Hu eq_refl), (Hcd ltac:(discriminate)),
    (Hsh eq_refl) in Hrun.
  rewrite (Hrun (Completed 0%Z (u " hello ") []) eq_refl).
  vm_compute. reflexivity.
Defined.

(** C3 (amended).  No operation that returns an outcome lets an exception
    reach its caller.  When the launcher call raises, the outcome has exit
    code -1 and an empty stdout; stderr is the fixed timeout message when
    the operation is the simple or the advanced run and the exception is a
    timeout, and the text of the exception in every other case (so for a
    lifecycle command also on a timeout). *)
Theorem bridge_failure_outcome (run : launcher) (op : bridge_op) :
  (∃ r, invoke run op = Return r)
  ∧ (∀ e, run (argv_of op) (timeout_of op) = Raise e →
       invoke run op =
         Return (mkResult (-1)%Z []
                   (if names_timeout op && is_class TimeoutExpired e
                    then msg_timeout else exn_str e))).
Proof.
  split; [apply invoke_returns | apply invoke_raised].
Qed.

Lemma bridge_failure_outcome_witness :
  (raises sample_timeout (argv_of (OpSimple (u "ls") 5%Z)) 5%Z = Raise sample_timeout
   ∧ invoke (raises sample_timeout) (OpSimple (u "ls") 5%Z)
     = Return (mkResult (-1)%Z [] (u "命令执行超时")))
  ∧ (raises sample_launch_error (argv_of (OpSimple (u "ls") 5%Z)) 5%Z
       = Raise sample_launch_error
     ∧ invoke (raises sample_launch_error) (OpSimple (u "ls") 5%Z)
       = Return (mkResult (-1)%Z [] (exn_str sample_launch_error)))
  ∧ (raises sample_timeout (argv_of OpShutdown) 10%Z = Raise sample_timeout
     ∧ invoke (raises sample_timeout) OpShutdown
       = Return (mkResult (-1)%Z [] (exn_str sample_timeout))).
Proof.
  split; [|split]; (split; [reflexivity|]).
  - rewrite (proj2 (bridge_failure_outcome (raises sample_timeout)
                      (OpSimple (u "ls") 5%Z)) sample_timeout eq_refl).
    vm_compute. reflexivity.
  - rewrite (proj2 (bridge_failure_outcome (raises sample_launch_error)
                      (OpSimple (u "ls") 5%Z)) sample_launch_error eq_refl).
    vm_compute. reflexivity.
  - rewrite (proj2 (bridge_failure_outcome (raises sample_timeout) OpShutdown)
               sample_timeout eq_refl).
    vm_compute. reflexivity.
Defined.

(** C3 as stated fails: on a timeout of the child process the version query
    and the verbose listing raise. *)
Lemma version_and_listing_propagate_timeout :
  get_wsl_version (raises sample_timeout) = Raise sample_timeout
  ∧ list_distributions (raises sample_timeout) = Raise sample_timeout.
Proof. split; reflexivity. Qed.

(** C5 (amended).  When the child process completes, the exit code of the
    outcome is the child's and stderr is the child's stderr, trimmed.  For
    the simple run, the advanced run and the status query stdout is the
    child's stdout, trimmed.  For shutdown, terminate, set-default, export,
    import, unregister and install stdout is a fixed message of the
    operation when the exit code is 0 and empty otherwise.  Trimming removes
    white space at both ends and nothing else. *)
Theorem bridge_outcome_fields (run : launcher) (op : bridge_op)
    (cp : CompletedProcess) :
  run (argv_of op) (timeout_of op) = Return cp →
  ∃ r, invoke run op = Return r
    ∧ returncode r = cp_returncode cp
    ∧ stderr r = strip (cp_stderr cp)
    ∧ (passes_stdout op = true → stdout r = strip (cp_stdout cp))
    ∧ (passes_stdout op = false → cp_returncode cp = 0%Z →
         stdout r = success_message op)
    ∧ (passes_stdout op = false → cp_returncode cp ≠ 0%Z → stdout r = [])
    ∧ (∀ s, trimmed (strip s)
           ∧ ∃ l t, s = l ++ strip s ++ t ∧ blank l ∧ blank t).
Proof.
  intros H. eexists. split; [by apply invoke_completed|]. simpl.
  split; [reflexivity|]. split; [reflexivity|].
  split; [by intros ->|].
  split; [intros -> Hrc; by rewrite bool_decide_eq_true_2|].
  split; [intros -> Hrc; by rewrite bool_decide_eq_false_2|].
  intros s. split; [apply strip_trimmed | apply strip_decompose].
Qed.

Lemma bridge_outcome_fields_witness :
  completes_with 0%Z (u " hello
") (u " warn ") (argv_of (OpSimple (u "echo hello") 5%Z))
      (timeout_of (OpSimple (u "echo hello") 5%Z))
    = Return (Completed 0%Z (u " hello
") (u " warn "))
  ∧ invoke (completes_with 0%Z (u " hello
") (u " warn ")) (OpSimple (u "echo hello") 5%Z)
    = Return (mkResult 0%Z (u "hello") (u "warn")).
Proof.
  split; [reflexivity|].
  destruct (bridge_outcome_fields (completes_with 0%Z (u " hello
") (u " warn ")) (OpSimple (u "echo hello") 5%Z) _ eq_refl)
    as (r & Hr & Hrc & Herr & Hout & _).
  rewrite Hr. destruct r as [rc out err]. simpl in *.
  rewrite Hrc, Herr, (Hout eq_refl). vm_compute. reflexivity.
Defined.

(** C5 as stated fails: shutdown answers with a text of its own, whatever
    the child process printed. *)
Lemma shutdown_stdout_is_synthesized :
  run_shutdown_stdout = Return (u "WSL已关闭")
  ∧ strip (u " The operation completed successfully. ") ≠ u "WSL已关闭".
Proof. split; [reflexivity | by vm_compute]. Qed.

(* ================================================================== *)
(** ** The loops that parse a listing *)
(* ================================================================== *)

Section ListingFacts.

Lemma startswith_nil (s : str) : startswith s [] = true.
Proof. by destruct s. Qed.


Lemma listing_step_short (items : list value) (line : str) :
  (length (split_ws line) < 9)%nat → listing_step items line = Return items.
Proof.
  intros H. unfold listing_step.
  destruct (truthy line); [|done].
  by rewrite (proj2 (Nat.leb_gt _ _) H).
Qed.

Lemma listing_step_long (items : list value) (line perms : str) rest :
  split_ws line = perms :: rest → (9 ≤ length (split_ws line))%nat →
  listing_step items line =
    Return (items ++ [VDict (dict_of
              [(K_NAME, VStr (join (u " ") (drop 8 (split_ws line))));
               (K_PERMS, VStr perms);
               (K_TYPE, VStr (if startswith perms (u "d")
                              then T_DIRECTORY else T_FILE))])]).
Proof.
  intros Htok Hlen. unfold listing_step.
  destruct line as [|c l]; [done|].
  cbn [truthy]. rewrite (proj2 (Nat.leb_le _ _) Hlen).
  by rewrite Htok.
Qed.

Lemma listing_step_entries (items : list value) (line : str) :
  listing_step items line = Return (items ++ line_entries line).
Proof.
  unfold line_entries.
  destruct (Nat.lt_ge_cases (length (split_ws line)) 9) as [H | H].
  - rewrite !listing_step_short by done. by rewrite app_nil_r.
  - destruct (split_ws line) as [|perms rest] eqn:Htok; [simpl in H; lia|].
    rewrite <- Htok in H.
    by rewrite !(listing_step_long _ line perms rest Htok H).
Qed.

Lemma listing_loop (lines : list str) (items : list value) :
  foldlM listing_step items lines = Return (items ++ flat_map line_entries lines).
Proof.
  revert items. induction lines as [|line lines IH]; intros items; simpl.
  - by rewrite app_nil_r.
  - rewrite listing_step_entries. simpl. rewrite IH. by rewrite <- app_assoc.
Qed.

Lemma distro_step_blank (distros : list dict) (line : str) :
  strip line = [] → distro_step distros line = Return distros.
Proof. intros H. unfold distro_step. by rewrite H. Qed.

Lemma distro_step_nonblank (distros : list dict) (line name : str) rest :
  strip line ≠ [] → split_ws line = name :: rest →
  distro_step distros line =
    Return (distros ++ [dict_of
              [(u "名称", VStr name);
               (u "状态", VStr (default [] (split_ws line !! 1%nat)));
               (u "版本", VStr (default [] (split_ws line !! 2%nat)))]]).
Proof.
  intros Hs Htok. unfold distro_step.
  rewrite (proj2 (truthy_true _) Hs), Htok.
  destruct rest as [|state [|version rest']]; reflexivity.
Qed.

Lemma distro_step_entries (distros : list dict) (line : str) :
  distro_step distros line = Return (distros ++ distro_entries line).
Proof.
  unfold distro_entries.
  destruct (decide (strip line = [])) as [H | H].
  - rewrite !distro_step_blank by done. by rewrite app_nil_r.
  - destruct (split_ws_of_nonblank_line line H) as (name & rest & Htok).
    by rewrite !(distro_step_nonblank _ line name rest H Htok).
Qed.

Lemma distro_loop (lines : list str) (distros : list dict) :
  foldlM distro_step distros lines
    = Return (distros ++ flat_map distro_entries lines).
Proof.
  revert distros. induction lines as [|line lines IH]; intros distros; simpl.
  - by rewrite app_nil_r.
  - rewrite distro_step_entries. simpl. rewrite IH. by rewrite <- app_assoc.
Qed.

Lemma online_step_entries (distros : list str) (line : str) :
  online_step distros line = distros ++ online_entries line.
Proof.
  unfold online_entries, online_step.
  destruct (truthy (strip line)); [done | by rewrite app_nil_r].
Qed.

Lemma online_loop (lines : list str) (distros : list str) :
  foldl online_step distros lines = distros ++ flat_map online_entries lines.
Proof.
  revert distros. induction lines as [|line lines IH]; intros distros; simpl.
  - by rewrite app_nil_r.
  - rewrite IH, online_step_entries. by rewrite <- app_assoc.
Qed.

Lemma split_has_head (sep : char) (s : str) :
  ∃ header rest, split sep s = header :: rest.
Proof.
  induction s as [|c r (h & t & IH)]; simpl; [eauto|].
  destruct (c =? sep); [eauto|]. rewrite IH. eauto.
Qed.

End ListingFacts.



(** The sample listing parsed: the total line and the short line are
    skipped, the directory and the file are classified. *)
Example sample_listing_parsed :
  foldlM listing_step [] (split NEWLINE (strip sample_listing))
    = Return
        [VDict (dict_of [(K_NAME, VStr (u "docs"));
                         (K_PERMS, VStr (u "drwxr-xr-x"));
                         (K_TYPE, VStr T_DIRECTORY)]);
         VDict (dict_of [(K_NAME, VStr (u "my notes.txt"));
                         (K_PERMS, VStr (u "-rw-r--r--"));
                         (K_TYPE, VStr T_FILE)])].
Proof. vm_compute. reflexivity. Qed.

(** What the body of the loop over the verbose listing does with one
    line.  A line that is blank is skipped.  For a line that is not blank
    the name is the first white-space token, the state the second and the
    version the third; a state or version the line does not have is the
    empty string, and the step returns: it raises nothing. *)
Lemma distro_step_parsing (distros : list dict) (line : str) :
  (strip line = [] → distro_step distros line = Return distros)
  ∧ (strip line ≠ [] →
       ∃ name d,
         split_ws line !! 0%nat = Some name
         ∧ distro_step distros line = Return (distros ++ [d])
         ∧ d !! u "名称" = Some (VStr name)
         ∧ d !! u "状态" = Some (VStr (default [] (split_ws line !! 1%nat)))
         ∧ d !! u "版本" = Some (VStr (default [] (split_ws line !! 2%nat)))
         ∧ ((length (split_ws line) < 2)%nat → d !! u "状态" = Some (VStr []))
         ∧ ((length (split_ws line) < 3)%nat → d !! u "版本" = Some (VStr []))).
Proof.
  split; [apply distro_step_blank|].
  intros Hs.
  destruct (split_ws_of_nonblank_line line Hs) as (name & rest & Htok).
  exists name. eexists.
  split; [by rewrite Htok|].
  split; [by apply (distro_step_nonblank distros line name rest)|].
  split; [dict_lookup|]. split; [dict_lookup|]. split; [dict_lookup|].
  split; intros Hlen; rewrite Htok in *;
    destruct rest as [|state [|version rest']]; simpl in Hlen; try lia;
    dict_lookup.
Qed.

(** C9.  When the verbose listing exits with 0, [list_distributions]
    returns: parsing the output raises nothing, whatever the lines are.
    Its result is, in the order of the lines of the trimmed output after
    the first one, what each line contributes.  A blank line contributes
    nothing.  A line that is not blank contributes one descriptor: its name
    is the first white-space token of the line, its state the second and
    its version the third, and a state or a version the line does not have
    is the empty string. *)
Theorem distribution_line_parsing (run : launcher) (cp : CompletedProcess) :
  run [wsl_path; u "-l"; u "--verbose"] 10%Z = Return cp →
  cp_returncode cp = 0%Z →
  ∃ (header : str) (lines : list str) (per_line : list (list dict)),
    split NEWLINE (strip (cp_stdout cp)) = header :: lines
    ∧ list_distributions run = Return (concat per_line)
    ∧ Forall2
        (λ line entries,
           (strip line = [] → entries = [])
           ∧ (strip line ≠ [] →
                ∃ name d,
                  split_ws line !! 0%nat = Some name
                  ∧ entries = [d]
                  ∧ d !! u "名称" = Some (VStr name)
                  ∧ d !! u "状态"
                      = Some (VStr (default [] (split_ws line !! 1%nat)))
                  ∧ d !! u "版本"
                      = Some (VStr (default [] (split_ws line !! 2%nat)))
                  ∧ ((length (split_ws line) < 2)%nat →
                       d !! u "状态" = Some (VStr []))
                  ∧ ((length (split_ws line) < 3)%nat →
                       d !! u "版本" = Some (VStr []))))
        lines per_line.
Proof.
  intros Hrun Hrc.
  destruct (split_has_head NEWLINE (strip (cp_stdout cp)))
    as (header & lines & Hlines).
  exists header, lines, (distro_entries <$> lines).
  split; [exact Hlines|]. split.
  - unfold list_distributions. rewrite Hrun. simpl.
    rewrite bool_decide_eq_true_2 by done.
    rewrite Hlines. simpl. rewrite distro_loop.
    by rewrite flat_map_concat_map.
  - apply Forall2_fmap_r, Forall_Forall2_diag, Forall_forall.
    intros line _. unfold distro_entries.
    destruct (distro_step_parsing [] line) as [Hblank Hnonblank]. split.
    + intros Hs. by rewrite (Hblank Hs).
    + intros Hs.
      destruct (Hnonblank Hs)
        as (name & d & Hname & Hstep & Hn & Hst & Hver & Hst0 & Hver0).
      exists name, d. rewrite Hstep. done.
Qed.

Lemma distribution_line_parsing_witness :
  completes_with 0%Z sample_distributions [] [wsl_path; u "-l"; u "--verbose"] 10%Z
    = Return (Completed 0%Z sample_distributions [])
  ∧ cp_returncode (Completed 0%Z sample_distributions []) = 0%Z
  ∧ ∃ d1 d2,
      list_distributions (completes_with 0%Z sample_distributions [])
        = Return [d1; d2]
      ∧ d1 !! u "名称" = Some (VStr (u "*"))
      ∧ d2 !! u "名称" = Some (VStr (u "Debian"))
      ∧ d2 !! u "状态" = Some (VStr (u "Stopped"))
      ∧ d2 !! u "版本" = Some (VStr []).
Proof.
  split; [reflexivity|]. split; [reflexivity|].
  destruct (distribution_line_parsing
              (completes_with 0%Z sample_distributions [])
              (Completed 0%Z sample_distributions []) eq_refl eq_refl)
    as (header & lines & per_line & Hsplit & Hres & Hall).
  vm_compute in Hsplit. injection Hsplit as _ <-.
  inversion Hall as [|l1 e1 ls es [_ H1] Hall']; subst.
  inversion Hall' as [|l2 e2 ls' es' [_ H2] Hnil]; subst.
  inversion Hnil; subst.
  destruct (H1 ltac:(vm_compute; discriminate))
    as (n1 & d1 & Hn1 & -> & Hname1 & _).
  destruct (H2 ltac:(vm_compute; discriminate))
    as (n2 & d2 & Hn2 & -> & Hname2 & Hstate2 & _ & _ & Hversion2).
  exists d1, d2. split; [exact Hres|].
  rewrite Hname1, Hname2, Hstate2, (Hversion2 ltac:(vm_compute; lia)).
  vm_compute in Hn1. injection Hn1 as <-.
  vm_compute in Hn2. injection Hn2 as <-.
  split; [|split; [|split]]; vm_compute; reflexivity.
Defined.

(** C10.  Both listings return the empty list when the launcher exits
    nonzero, and the online listing also when the launcher call raises.
    On exit code 0 the trimmed output always has a first line, and the
    result is built from the lines after it only. *)
Theorem listings_failure_and_header (run : launcher) :
  (∀ cp, run [wsl_path; u "-l"; u "--verbose"] 10%Z = Return cp →
         cp_returncode cp ≠ 0%Z → list_distributions run = Return [])
  ∧ (∀ cp, run [wsl_path; u "-l"; u "--online"] 30%Z = Return cp →
           cp_returncode cp ≠ 0%Z → list_online_distributions run = Return [])
  ∧ (∀ e, run [wsl_path; u "-l"; u "--online"] 30%Z = Raise e →
          list_online_distributions run = Return [])
  ∧ (∀ cp, run [wsl_path; u "-l"; u "--verbose"] 10%Z = Return cp →
           cp_returncode cp = 0%Z →
           ∃ header rest,
             split NEWLINE (strip (cp_stdout cp)) = header :: rest
             ∧ list_distributions run = Return (flat_map distro_entries rest))
  ∧ (∀ cp, run [wsl_path; u "-l"; u "--online"] 30%Z = Return cp →
           cp_returncode cp = 0%Z →
           ∃ header rest,
             split NEWLINE (strip (cp_stdout cp)) = header :: rest
             ∧ list_online_distributions run
                 = Return (flat_map online_entries rest)).
Proof.
  repeat apply conj.
  - intros cp H Hrc. unfold list_distributions. rewrite H. simpl.
    by rewrite bool_decide_eq_false_2.
  - intros cp H Hrc. unfold list_online_distributions. rewrite H. simpl.
    by rewrite bool_decide_eq_false_2.
  - intros e H. unfold list_online_distributions. by rewrite H.
  - intros cp H Hrc.
    destruct (split_has_head NEWLINE (strip (cp_stdout cp)))
      as (header & rest & Hlines).
    exists header, rest. split; [exact Hlines|].
    unfold list_distributions. rewrite H. simpl.
    rewrite bool_decide_eq_true_2 by done.
    rewrite Hlines. simpl. by rewrite distro_loop.
  - intros cp H Hrc.
    destruct (split_has_head NEWLINE (strip (cp_stdout cp)))
      as (header & rest & Hlines).
    exists header, rest. split; [exact Hlines|].
    unfold list_online_distributions. rewrite H. simpl.
    rewrite bool_decide_eq_true_2 by done.
    rewrite Hlines. simpl. by rewrite online_loop.
Qed.

Lemma listings_failure_and_header_witness :
  (completes_with 1%Z (u "NAME STATE VERSION") (u "denied")
       [wsl_path; u "-l"; u "--verbose"] 10%Z
     = Return (Completed 1%Z (u "NAME STATE VERSION") (u "denied"))
   ∧ list_distributions (completes_with 1%Z (u "NAME STATE VERSION") (u "denied"))
     = Return [])
  ∧ (raises sample_launch_error [wsl_path; u "-l"; u "--online"] 30%Z
       = Raise sample_launch_error
     ∧ list_online_distributions (raises sample_launch_error) = Return [])
  ∧ (completes_with 0%Z (u "NAME FRIENDLY NAME
Ubuntu Ubuntu
Debian Debian GNU/Linux") [] [wsl_path; u "-l"; u "--online"] 30%Z
       = Return (Completed 0%Z (u "NAME FRIENDLY NAME
Ubuntu Ubuntu
Debian Debian GNU/Linux") [])
     ∧ list_online_distributions (completes_with 0%Z (u "NAME FRIENDLY NAME
Ubuntu Ubuntu
Debian Debian GNU/Linux") [])
       = Return [u "Ubuntu Ubuntu"; u "Debian Debian GNU/Linux"]).
Proof.
  split; [|split]; (split; [reflexivity|]).
  - apply (proj1 (listings_failure_and_header _)
             (Completed 1%Z (u "NAME STATE VERSION") (u "denied")) eq_refl).
    discriminate.
  - exact (proj1 (proj2 (proj2 (listings_failure_and_header _))) _ eq_refl).
  - destruct (proj2 (proj2 (proj2 (proj2 (listings_failure_and_header
        (completes_with 0%Z (u "NAME FRIENDLY NAME
Ubuntu Ubuntu
Debian Debian GNU/Linux") [])))))
        _ eq_refl eq_refl) as (header & rest & Hlines & Hres).
    rewrite Hres. vm_compute in Hlines.
    injection Hlines as _ <-. vm_compute. reflexivity.
Defined.

(** A listing that succeeded with nothing but its header and a listing that
    failed return the same value. *)
Example failed_listing_looks_empty :
  list_online_distributions (completes_with 0%Z (u "NAME FRIENDLY NAME") [])
    = list_online_distributions (completes_with 1%Z [] (u "access denied"))
  ∧ list_distributions (completes_with 0%Z (u "NAME STATE VERSION") [])
    = list_distributions (completes_with 1%Z [] (u "access denied")).
Proof. split; vm_compute; reflexivity. Qed.

(* ================================================================== *)
(** ** The environment directory operations *)
(* ================================================================== *)

Section FileFacts.

Variable run : launcher.
Variable int_of_str : str → option Z.

Lemma call_returns (command : str) : ∃ r, call run command = Return r.
Proof. apply (invoke_returns run (OpSimple command 30%Z)). Qed.

(** The operations that look at the exit code only. *)
Lemma by_exit_code_flag (result : WSLCommandResult) (ok ko : dict) :
  ok !! K_SUCCESS = Some (VBool true) →
  ko !! K_SUCCESS = Some (VBool false) →
  ko !! K_ERROR = Some (VStr (stderr result)) →
  let d := if succeeded result then ok else ko in
  (reports_success d ↔ returncode result = 0%Z)
  ∧ (returncode result ≠ 0%Z →
       reports_failure d ∧ error_detail d = Some (VStr (stderr result))).
Proof.
  intros Hok Hko Herr. unfold succeeded, reports_success, reports_failure,
    error_detail. simpl.
  case_bool_decide as Hrc.
  - split; [done|]. intros H. by destruct H.
  - split; [|done]. rewrite Hko. split; [discriminate | done].
Qed.

(** The dictionary of the three checks. *)
Lemma check_reports (c : check) (path : str) (b : bool) :
  let d := dict_of [(K_SUCCESS, VBool true); (K_PATH, VStr path);
                    (check_key c, VBool b)] in
  reports_success d ∧ error_detail d = None
  ∧ d !! K_PATH = Some (VStr path) ∧ d !! check_key c = Some (VBool b).
Proof. destruct c; repeat split; dict_lookup. Qed.

End FileFacts.

(** Closes the goal of an operation that returns one dictionary on exit
    code 0 and another one otherwise. *)
Ltac by_exit_code :=
  rewrite ?listing_loop; simpl; unfold mret, pyresult_ret;
  lazymatch goal with
  | |- ∃ d, (if succeeded ?r then Return ?ok else Return ?ko) = Return d ∧ _ =>
      exists (if succeeded r then ok else ko);
      split; [by destruct (succeeded r)|];
      apply by_exit_code_flag; dict_lookup
  end.

(** C4 (amended).  Every operation returns a dictionary.  For read, write,
    append, make directory, list directory, delete, copy, move, stat,
    current directory, change directory, line-range read and search, the
    dictionary reports success if and only if the simple-run outcome has
    exit code 0, and on a nonzero exit code it reports failure with the
    outcome's stderr as the error detail.  The three checks [file_exists],
    [is_directory] and [is_file] report success whatever the exit code,
    echo the path, and their flag is the comparison of the outcome's stdout
    with the sentinel of the check: true when they are equal, false
    otherwise.
    [count_lines] reports failure with stderr on a nonzero exit code; on
    exit code 0 it reports success exactly when the trimmed stdout has a
    first token that [int] accepts, and failure otherwise. *)
Theorem file_operation_success_flag
    (run : launcher) (int_of_str : str → option Z)
    (op : file_op) (result : WSLCommandResult) :
  call run (command_of op) = Return result →
  ∃ d, perform run int_of_str op = Return d
    ∧ match kind_of op with
      | ByExitCode =>
          (reports_success d ↔ returncode result = 0%Z)
          ∧ (returncode result ≠ 0%Z →
               reports_failure d ∧ error_detail d = Some (VStr (stderr result)))
      | AlwaysSuccess =>
          reports_success d
          ∧ ∃ c path,
              check_of op = Some (c, path)
              ∧ d !! K_PATH = Some (VStr path)
              ∧ d !! check_key c
                  = Some (VBool (bool_decide (stdout result = check_sentinel c)))
      | ParsesCount =>
          (returncode result ≠ 0%Z →
             reports_failure d ∧ error_detail d = Some (VStr (stderr result)))
          ∧ (returncode result = 0%Z →
               (reports_success d ↔
                  ∃ first n, split_ws (strip (stdout result)) !! 0%nat = Some first
                             ∧ int_of_str first = Some n)
               ∧ (reports_success d ∨ reports_failure d))
      end.
Proof.
  intros Hcall.
  destruct op; simpl in *;
    unfold read_file, write_file, append_to_file, create_directory,
      list_directory, delete_file, copy_file, move_file, get_file_info,
      file_exists, is_directory, is_file, get_current_directory,
      change_directory, read_file_lines, search_in_file, count_lines;
    rewrite Hcall; simpl.
  (* the operations that branch on the exit code *)
  all: try by_exit_code.
  (* the three checks *)
  all: try (eexists; split; [reflexivity|]; split; [dict_lookup|];
            eexists _, _; split; [reflexivity|];
            lazymatch goal with
            | |- dict_of [_; (_, VStr ?p); (_, VBool ?b)] !! _ = _
                 ∧ _ !! check_key ?c = _ =>
                exact (proj2 (proj2 (check_reports c p b)))
            end).
  (* count_lines *)
  unfold succeeded. case_bool_decide as Hrc.
  - destruct (split_ws (strip (stdout result))) as [|first rest] eqn:Htok;
      cbn [index lookup list_lookup mbind pyresult_bind try_except].
    + eexists. split; [reflexivity|]. split; [done|]. intros _.
      assert (Hko : reports_failure (dict_of
                [(K_SUCCESS, VBool false); (K_FILE_PATH, VStr file_path);
                 (K_ERROR, VStr (u "无法解析行数"))])) by dict_lookup.
      split; [|by right]. split.
      * intros H. by apply success_excludes_failure in H.
      * by intros (? & ? & ? & _).
    + unfold py_int. destruct (int_of_str first) as [n|] eqn:Hint;
        cbn [mbind pyresult_bind try_except mret pyresult_ret is_class
             exn_class_of orb].
      * eexists. split; [reflexivity|]. split; [done|]. intros _.
        assert (Hok : reports_success (dict_of
                  [(K_SUCCESS, VBool true); (K_FILE_PATH, VStr file_path);
                   (u "行数", VInt n)])) by dict_lookup.
        split; [|by left]. split; [intros _; by exists first, n | done].
      * eexists. split; [reflexivity|]. split; [done|]. intros _.
        assert (Hko : reports_failure (dict_of
                  [(K_SUCCESS, VBool false); (K_FILE_PATH, VStr file_path);
                   (K_ERROR, VStr (u "无法解析行数"))])) by dict_lookup.
        split; [|by right]. split.
        -- intros H. by apply success_excludes_failure in H.
        -- intros (f & n & [= <-] & Hn). congruence.
  - eexists. split; [reflexivity|]. split; [|done].
    intros _. split; dict_lookup.
Qed.

Lemma file_operation_success_flag_witness :
  call (completes_with 1%Z [] (u "rm: cannot remove"))
       (command_of (FDelete (u "/tmp/x") false))
    = Return (mkResult 1%Z [] (u "rm: cannot remove"))
  ∧ ∃ d, perform (completes_with 1%Z [] (u "rm: cannot remove")) digits_only
           (FDelete (u "/tmp/x") false) = Return d
      ∧ reports_failure d
      ∧ error_detail d = Some (VStr (u "rm: cannot remove")).
Proof.
  assert (Hcall :
    call (completes_with 1%Z [] (u "rm: cannot remove"))
         (command_of (FDelete (u "/tmp/x") false))
      = Return (mkResult 1%Z [] (u "rm: cannot remove")))
    by (vm_compute; reflexivity).
  split; [exact Hcall|].
  destruct (file_operation_success_flag _ digits_only _ _ Hcall)
    as (d & Hd & _ & Hfail).
  exists d. split; [exact Hd|]. apply Hfail. discriminate.
Defined.

(** C4 as stated fails in both directions: after a timeout of the bridge
    (exit code -1) [file_exists] reports success, and on exit code 0 with an
    empty stdout [count_lines] reports failure. *)
Lemma success_flag_is_not_the_exit_code :
  (r ← call (raises sample_timeout) (command_of (FExists (u "/tmp")));
   mret (returncode r)) = Return (-1)%Z
  ∧ (d ← perform (raises sample_timeout) digits_only (FExists (u "/tmp"));
     mret (d !! K_SUCCESS)) = Return (Some (VBool true))
  ∧ (r ← call (completes_with 0%Z [] []) (command_of (FCount (u "/tmp/x")));
     mret (returncode r)) = Return 0%Z
  ∧ (d ← perform (completes_with 0%Z [] []) digits_only (FCount (u "/tmp/x"));
     mret (d !! K_SUCCESS)) = Return (Some (VBool false)).
Proof. repeat split; vm_compute; reflexivity. Qed.

(* ================================================================== *)
(** ** The path translator *)
(* ================================================================== *)

Section PathFacts.

Variable unicode_lower unicode_upper : char → str.

Lemma startswith_spec (s prefix : str) :
  startswith s prefix = true ↔ ∃ rest, s = prefix ++ rest.
Proof.
  revert s. induction prefix as [|p prefix IH]; intros s.
  - rewrite startswith_nil. split; [eauto | done].
  - destruct s as [|c s]; simpl.
    + split; [done | by intros [rest ?]].
    + rewrite andb_true_iff, N.eqb_eq, IH. split.
      * intros [-> [rest ->]]. eauto.
      * intros [rest [= -> ->]]. eauto.
Qed.

Lemma convert_windows_path_no_colon (s : str) :
  s !! 1%nat ≠ Some COLON →
  convert_windows_path unicode_lower s = Return s.
Proof.
  intros H. unfold convert_windows_path.
  by rewrite (bool_decide_eq_false_2 _ H), andb_false_r.
Qed.

Lemma convert_to_windows_path_no_mnt (s : str) :
  startswith s (u "/mnt/") = false →
  convert_to_windows_path unicode_upper s = Return s.
Proof. intros H. unfold convert_to_windows_path. by rewrite H. Qed.

End PathFacts.

(** C6 (amended).  [convert_windows_path] returns its input unchanged
    whenever the second character is not a colon (an input of fewer than two
    characters included); [convert_to_windows_path] returns its input
    unchanged whenever it does not start with [/mnt/]. *)
Theorem path_identity_fallback
    (unicode_lower unicode_upper : char → str) (s : str) :
  (s !! 1%nat ≠ Some COLON → convert_windows_path unicode_lower s = Return s)
  ∧ ((¬ ∃ rest, s = u "/mnt/" ++ rest) →
       convert_to_windows_path unicode_upper s = Return s).
Proof.
  split.
  - apply convert_windows_path_no_colon.
  - intros H. apply convert_to_windows_path_no_mnt.
    destruct (startswith s (u "/mnt/")) eqn:E; [|done].
    by apply startswith_spec in E.
Qed.

Lemma path_identity_fallback_witness :
  (u "relative\dir" !! 1%nat ≠ Some COLON
   ∧ convert_windows_path no_case (u "relative\dir") = Return (u "relative\dir"))
  ∧ ((¬ ∃ rest, u "/home/user" = u "/mnt/" ++ rest)
     ∧ convert_to_windows_path no_case (u "/home/user") = Return (u "/home/user")).
Proof.
  assert (H1 : u "relative\dir" !! 1%nat ≠ Some COLON) by (vm_compute; congruence).
  assert (H2 : ¬ ∃ rest, u "/home/user" = u "/mnt/" ++ rest).
  { intros [rest H]. vm_compute in H. congruence. }
  split; (split; [assumption|]).
  - exact (proj1 (path_identity_fallback no_case no_case _) H1).
  - exact (proj2 (path_identity_fallback no_case no_case _) H2).
Defined.

(** C6 as stated fails: an input whose first character is not a letter but
    whose second is a colon has no drive-letter-colon prefix, and is
    rewritten all the same. *)
Lemma colon_without_letter_is_translated :
  ¬ has_drive_prefix (u "1:x")
  ∧ convert_windows_path no_case (u "1:x") = Return (u "/mnt/1/x")
  ∧ u "/mnt/1/x" ≠ u "1:x".
Proof.
  split; [|split].
  - intros (c & rest & H & Hc). vm_compute in H.
    injection H as <- _. by vm_compute in Hc.
  - vm_compute. reflexivity.
  - by vm_compute.
Qed.

(* ================================================================== *)
(** ** The path translator on canonical paths *)
(* ================================================================== *)

Section ReplaceFacts.

Lemma replace_one_char (s : str) (a b : char) :
  replace s [a] [b] = map (swap_char a b) s.
Proof.
  unfold replace, swap_char. induction s as [|c r IH]; simpl; [done|].
  rewrite startswith_nil, andb_true_r.
  destruct (c =? a); simpl; by rewrite IH.
Qed.

Lemma replace_without_doubled_slash (s : str) :
  has_doubled_slash s = false → replace s [SLASH; SLASH] [SLASH] = s.
Proof.
  unfold replace. induction s as [|c r IH]; [done|].
  intros H. cbn [replace_from startswith].
  assert (Hno : (c =? SLASH) && startswith r [SLASH] = false ∧ has_doubled_slash r = false).
  { destruct r as [|c' r']; simpl in *.
    - by rewrite andb_false_r.
    - apply orb_false_elim in H as [H1 H2]. rewrite startswith_nil, andb_true_r.
      by rewrite H1. }
  destruct Hno as [-> Hr]. by rewrite IH.
Qed.

Lemma split_without_sep (sep : char) (w : str) :
  sep ∉ w → split sep w = [w].
Proof.
  induction w as [|c r IH]; [done|].
  intros H. apply not_elem_of_cons in H as [Hc Hr]. simpl.
  rewrite (proj2 (N.eqb_neq c sep)) by congruence. by rewrite IH.
Qed.

Lemma split_at_sep (sep : char) (w s : str) :
  sep ∉ w → split sep (w ++ sep :: s) = w :: split sep s.
Proof.
  induction w as [|c r IH]; intros H; simpl.
  - by rewrite N.eqb_refl.
  - apply not_elem_of_cons in H as [Hc Hr].
    rewrite (proj2 (N.eqb_neq c sep)) by congruence. by rewrite IH.
Qed.

Lemma split_led_segments (sep : char) (w : str) (segments : list str) :
  sep ∉ w → Forall (λ seg, sep ∉ seg) segments →
  split sep (w ++ flat_map (λ seg, sep :: seg) segments) = w :: segments.
Proof.
  intros Hw Hsegs. revert w Hw.
  induction Hsegs as [|seg segments Hseg _ IH]; intros w Hw; simpl.
  - rewrite app_nil_r. by apply split_without_sep.
  - rewrite split_at_sep by done. by rewrite IH.
Qed.

Lemma led_segments_join (sep : char) (segments : list str) :
  segments ≠ [] →
  flat_map (λ seg, sep :: seg) segments = sep :: join [sep] segments.
Proof.
  induction segments as [|seg [|seg' rest] IH]; [done | |]; intros _.
  - simpl. by rewrite app_nil_r.
  - change (flat_map (λ seg, sep :: seg) (seg :: seg' :: rest))
      with ((sep :: seg) ++ flat_map (λ seg, sep :: seg) (seg' :: rest)).
    rewrite IH by done. reflexivity.
Qed.

Lemma map_swap_id (a b : char) (s : str) : a ∉ s → map (swap_char a b) s = s.
Proof.
  induction s as [|c r IH]; [done|]. intros H.
  apply not_elem_of_cons in H as [Hc Hr]. simpl. unfold swap_char at 1.
  rewrite (proj2 (N.eqb_neq c a)) by congruence. by rewrite IH.
Qed.

Lemma map_swap_led_segments (a b : char) (segments : list str) :
  Forall (λ seg, a ∉ seg) segments →
  map (swap_char a b) (flat_map (λ seg, a :: seg) segments)
    = flat_map (λ seg, b :: seg) segments.
Proof.
  induction 1 as [|seg segments Hseg _ IH]; [done|]. simpl.
  rewrite map_app, IH, map_swap_id by done.
  unfold swap_char at 1. by rewrite N.eqb_refl.
Qed.

Lemma map_swap_join (a b : char) (segments : list str) :
  Forall (λ seg, a ∉ seg) segments →
  map (swap_char a b) (join [a] segments) = join [b] segments.
Proof.
  induction 1 as [|seg [|seg' rest] Hseg Hrest IH]; [done | |].
  - simpl. by apply map_swap_id.
  - change (join [a] (seg :: seg' :: rest)) with (seg ++ [a] ++ join [a] (seg' :: rest)).
    change (join [b] (seg :: seg' :: rest)) with (seg ++ [b] ++ join [b] (seg' :: rest)).
    rewrite !map_app, IH, map_swap_id by done. simpl.
    unfold swap_char at 1. by rewrite N.eqb_refl.
Qed.

Lemma has_doubled_slash_cons (c c' : char) (r : str) :
  has_doubled_slash (c :: c' :: r)
    = ((c =? SLASH) && (c' =? SLASH)) || has_doubled_slash (c' :: r).
Proof. reflexivity. Qed.

Lemma has_doubled_slash_skip (w t : str) :
  SLASH ∉ w → has_doubled_slash (w ++ t) = has_doubled_slash t.
Proof.
  induction w as [|c w IH]; [done|]. intros H.
  apply not_elem_of_cons in H as [Hc Hw].
  specialize (IH Hw). simpl app.
  destruct (w ++ t) as [|c' r] eqn:E.
  - apply app_eq_nil in E as [_ ->]. reflexivity.
  - rewrite has_doubled_slash_cons, IH.
    by rewrite (proj2 (N.eqb_neq c SLASH)) by congruence.
Qed.

Lemma led_segments_no_doubled_slash (segments : list str) :
  Forall is_segment segments →
  has_doubled_slash (flat_map (λ seg, SLASH :: seg) segments) = false.
Proof.
  induction 1 as [|seg segments (Hne & Hs & _) _ IH]; [done|].
  destruct seg as [|c seg]; [done|].
  change (flat_map (λ seg, SLASH :: seg) ((c :: seg) :: segments))
    with (SLASH :: c :: seg ++ flat_map (λ seg, SLASH :: seg) segments).
  rewrite has_doubled_slash_cons.
  change (c :: seg ++ flat_map (λ seg, SLASH :: seg) segments)
    with ((c :: seg) ++ flat_map (λ seg, SLASH :: seg) segments).
  rewrite has_doubled_slash_skip, IH by done.
  apply not_elem_of_cons in Hs as [Hc _].
  by rewrite (proj2 (N.eqb_neq c SLASH)) by congruence.
Qed.


Lemma is_segment_no_slash (segments : list str) :
  Forall is_segment segments → Forall (λ seg, SLASH ∉ seg) segments.
Proof. intros H. eapply Forall_impl; [exact H|]. by intros seg (_ & Hs & _). Qed.

Lemma is_segment_no_backslash (segments : list str) :
  Forall is_segment segments → Forall (λ seg, BACKSLASH ∉ seg) segments.
Proof. intros H. eapply Forall_impl; [exact H|]. by intros seg (_ & _ & Hs). Qed.

End ReplaceFacts.

Section Canonical.
Variable unicode_lower unicode_upper : char → str.

Lemma upper_letter_bounds (c : char) :
  is_upper_letter c = true → 65 ≤ c ∧ c ≤ 90.
Proof. unfold is_upper_letter. rewrite andb_true_iff, !N.leb_le. done. Qed.

Lemma lower_letter_bounds (c : char) :
  is_lower_letter c = true → 97 ≤ c ∧ c ≤ 122.
Proof. unfold is_lower_letter. rewrite andb_true_iff, !N.leb_le. done. Qed.

Lemma lower_of_upper_letter (c : char) :
  is_upper_letter c = true → lower unicode_lower [c] = [c + 32].
Proof. intros H. unfold lower, lower_char. simpl. unfold is_upper_letter in H. by rewrite H. Qed.

Lemma upper_of_lower_letter (c : char) :
  is_lower_letter c = true → upper unicode_upper [c] = [c - 32].
Proof. intros H. unfold upper, upper_char. simpl. unfold is_lower_letter in H. by rewrite H. Qed.

(** [convert_windows_path] on a canonical host path. *)
Lemma convert_windows_path_canonical (letter : char) (segments : list str) :
  is_upper_letter letter = true → Forall is_segment segments →
  convert_windows_path unicode_lower (host_path letter segments)
    = Return (u "/mnt/" ++ (letter + 32) :: SLASH
                :: flat_map (λ seg, SLASH :: seg) segments).
Proof.
  intros Hl Hsegs. unfold convert_windows_path, host_path.
  cbn [length Nat.leb andb lookup list_lookup index skipn].
  rewrite bool_decide_eq_true_2 by done.
  cbn [mbind pyresult_bind mret pyresult_ret].
  rewrite lower_of_upper_letter by done.
  change (u "/") with [SLASH]. change (u "//") with [SLASH; SLASH].
  rewrite drop_0, replace_one_char, map_swap_led_segments
    by by apply is_segment_no_backslash.
  rewrite replace_without_doubled_slash
    by by apply led_segments_no_doubled_slash.
  reflexivity.
Qed.

(** [convert_to_windows_path] on [/mnt/x] followed by segments, each led by
    a slash; the first segment may be empty. *)
Lemma convert_to_windows_path_mnt (letter : char) (first : str) (segments : list str) :
  is_lower_letter letter = true → SLASH ∉ first → Forall is_segment segments →
  convert_to_windows_path unicode_upper
      (u "/mnt/" ++ letter :: flat_map (λ seg, SLASH :: seg) (first :: segments))
    = Return ((letter - 32) :: COLON :: BACKSLASH
                :: map (swap_char SLASH BACKSLASH) (join [SLASH] (first :: segments))).
Proof.
  intros Hl Hfirst Hsegs. unfold convert_to_windows_path.
  pose proof (lower_letter_bounds _ Hl) as [Hlo Hhi].
  assert (Hstart : startswith
            (u "/mnt/" ++ letter :: flat_map (λ seg, SLASH :: seg) (first :: segments))
            (u "/mnt/") = true) by (apply startswith_spec; eauto).
  rewrite Hstart.
  assert (Hsplit : split SLASH
            (u "/mnt/" ++ letter :: flat_map (λ seg, SLASH :: seg) (first :: segments))
          = [] :: u "mnt" :: [letter] :: first :: segments).
  { change (u "/mnt/" ++ letter :: flat_map (λ seg, SLASH :: seg) (first :: segments))
      with ([] ++ flat_map (λ seg, SLASH :: seg)
                    (u "mnt" :: [letter] :: first :: segments)).
    apply split_led_segments; [apply not_elem_of_nil|].
    constructor.
    { change (u "mnt") with [109; 110; 116]. intros H.
      repeat (apply elem_of_cons in H as [H | H]; [discriminate|]).
      by apply elem_of_nil in H. }
    constructor.
    { intros H. apply list_elem_of_singleton in H. subst. by vm_compute in Hlo. }
    constructor; [done|]. by apply is_segment_no_slash. }
  rewrite Hsplit.
  cbn [length Nat.leb index lookup list_lookup skipn mbind pyresult_bind mret pyresult_ret].
  rewrite upper_of_lower_letter by done.
  change (u "/") with [SLASH].
  rewrite replace_one_char. cbn [app map].
  f_equal. f_equal.
  unfold swap_char. rewrite (proj2 (N.eqb_neq _ SLASH)); [done|].
  unfold SLASH. lia.
Qed.


Lemma convert_to_windows_path_canonical (letter : char) (segments : list str) :
  is_lower_letter letter = true → segments ≠ [] → Forall is_segment segments →
  convert_to_windows_path unicode_upper (guest_path letter segments)
    = Return (host_path (letter - 32) segments).
Proof.
  intros Hl Hne Hsegs. unfold guest_path, host_path.
  destruct segments as [|first segments]; [done|].
  inversion Hsegs as [|? ? (_ & Hfirst & _) Hrest]; subst.
  rewrite convert_to_windows_path_mnt by done.
  rewrite map_swap_join by by apply is_segment_no_slash.
  by rewrite (led_segments_join BACKSLASH (first :: segments)).
Qed.

(** [convert_to_windows_path] on what [convert_windows_path] returns for a
    canonical host path. *)
Lemma convert_to_windows_path_doubled (letter : char) (segments : list str) :
  is_lower_letter letter = true → segments ≠ [] → Forall is_segment segments →
  convert_to_windows_path unicode_upper
      (u "/mnt/" ++ letter :: SLASH :: flat_map (λ seg, SLASH :: seg) segments)
    = Return ((letter - 32) :: COLON :: BACKSLASH
                :: flat_map (λ seg, BACKSLASH :: seg) segments).
Proof.
  intros Hl Hne Hsegs.
  change (u "/mnt/" ++ letter :: SLASH :: flat_map (λ seg, SLASH :: seg) segments)
    with (u "/mnt/" ++ letter :: flat_map (λ seg, SLASH :: seg) ([] :: segments)).
  rewrite convert_to_windows_path_mnt by (done || apply not_elem_of_nil).
  destruct segments as [|seg rest]; [done|].
  change (join [SLASH] ([] :: seg :: rest))
    with (SLASH :: join [SLASH] (seg :: rest)).
  cbn [map]. rewrite map_swap_join by by apply is_segment_no_slash.
  rewrite (led_segments_join BACKSLASH (seg :: rest)) by done.
  reflexivity.
Qed.

Lemma has_doubled_slash_inside (pre t : str) :
  has_doubled_slash (pre ++ SLASH :: SLASH :: t) = true.
Proof.
  induction pre as [|c pre IH]; [done|]. simpl app.
  destruct (pre ++ SLASH :: SLASH :: t) as [|c' r] eqn:E.
  - by destruct pre.
  - rewrite has_doubled_slash_cons, IH. by rewrite orb_true_r.
Qed.

Lemma insert_changes (A : Type) (x : A) (pre l : list A) : pre ++ x :: l ≠ pre ++ l.
Proof.
  intros H. apply (f_equal length) in H. rewrite !length_app in H. simpl in H. lia.
Qed.

End Canonical.

(** C2 (what the code does).  For a canonical host path
    [convert_windows_path] returns [/mnt/], the lower-cased letter, a
    slash, and then every segment led by a slash: the slash written after
    the letter and the one that leads the first segment stand side by side,
    and the result has a doubled slash.  For [C:\Users\Name] the result is
    [/mnt/c//Users/Name], where the specification and the docstring give
    [/mnt/c/Users/Name]; [convert_to_windows_path] maps [/mnt/c/Users/Name]
    to [C:\Users\Name] as documented. *)
Theorem documented_example_gets_doubled_slash
    (unicode_lower unicode_upper : char → str) :
  (∀ letter segments,
     is_upper_letter letter = true → segments ≠ [] →
     Forall is_segment segments →
     convert_windows_path unicode_lower (host_path letter segments)
       = Return (u "/mnt/" ++ (letter + 32) :: SLASH
                   :: flat_map (λ seg, SLASH :: seg) segments)
     ∧ has_doubled_slash
         (u "/mnt/" ++ (letter + 32) :: SLASH
            :: flat_map (λ seg, SLASH :: seg) segments) = true)
  ∧ convert_windows_path unicode_lower (u "C:\Users\Name")
    = Return (u "/mnt/c//Users/Name")
  ∧ u "/mnt/c//Users/Name" ≠ u "/mnt/c/Users/Name"
  ∧ convert_to_windows_path unicode_upper (u "/mnt/c/Users/Name")
    = Return (u "C:\Users\Name").
Proof.
  split.
  { intros letter segments Hl Hne Hsegs. split.
    - by apply convert_windows_path_canonical.
    - rewrite (led_segments_join SLASH segments Hne).
      apply (has_doubled_slash_inside (u "/mnt/" ++ [letter + 32])). }
  split; [vm_compute; reflexivity|].
  split; [by vm_compute|].
  vm_compute; reflexivity.
Qed.

Lemma documented_example_gets_doubled_slash_witness :
  is_upper_letter 67 = true
  ∧ [u "Users"; u "Name"] ≠ []
  ∧ Forall is_segment [u "Users"; u "Name"]
  ∧ host_path 67 [u "Users"; u "Name"] = u "C:\Users\Name"
  ∧ convert_windows_path no_case (host_path 67 [u "Users"; u "Name"])
    = Return (u "/mnt/c//Users/Name").
Proof.
  assert (Hsegs : Forall is_segment [u "Users"; u "Name"]).
  { repeat constructor; try discriminate; intros H; vm_compute in H;
      repeat (apply elem_of_cons in H as [H | H]; [discriminate|]);
      by apply elem_of_nil in H. }
  split; [reflexivity|]. split; [done|]. split; [exact Hsegs|].
  split; [vm_compute; reflexivity|].
  rewrite (proj1 (proj1 (documented_example_gets_doubled_slash no_case no_case)
                    67 [u "Users"; u "Name"] eq_refl ltac:(done) Hsegs)).
  vm_compute. reflexivity.
Defined.

(** C1 (what the code does).  For every canonical host path [X:\a\b] the
    round trip through [convert_windows_path] and [convert_to_windows_path]
    returns the path with a second backslash after the colon, and for every
    canonical guest path [/mnt/x/a/b] the round trip through
    [convert_to_windows_path] and [convert_windows_path] returns the path
    with a second slash after the drive letter: neither reproduces its
    input. *)
Theorem round_trips_double_the_first_separator
    (unicode_lower unicode_upper : char → str)
    (letter : char) (segments : list str) :
  segments ≠ [] → Forall is_segment segments →
  (is_upper_letter letter = true →
     (guest ← convert_windows_path unicode_lower (host_path letter segments);
      convert_to_windows_path unicode_upper guest)
       = Return (letter :: COLON :: BACKSLASH
                   :: flat_map (λ seg, BACKSLASH :: seg) segments)
     ∧ letter :: COLON :: BACKSLASH :: flat_map (λ seg, BACKSLASH :: seg) segments
         ≠ host_path letter segments)
  ∧ (is_lower_letter letter = true →
       (host ← convert_to_windows_path unicode_upper (guest_path letter segments);
        convert_windows_path unicode_lower host)
         = Return (u "/mnt/" ++ letter :: SLASH
                     :: flat_map (λ seg, SLASH :: seg) segments)
       ∧ u "/mnt/" ++ letter :: SLASH :: flat_map (λ seg, SLASH :: seg) segments
           ≠ guest_path letter segments).
Proof.
  intros Hne Hsegs. split; intros Hl.
  - split.
    + rewrite convert_windows_path_canonical by done.
      cbn [mbind pyresult_bind].
      pose proof (upper_letter_bounds _ Hl) as [Hlo Hhi].
      rewrite convert_to_windows_path_doubled; [| |done..].
      * by replace (letter + 32 - 32) with letter by lia.
      * unfold is_lower_letter. apply andb_true_iff. rewrite !N.leb_le. lia.
    + apply (insert_changes _ BACKSLASH [letter; COLON]).
  - split.
    + rewrite convert_to_windows_path_canonical by done.
      cbn [mbind pyresult_bind].
      pose proof (lower_letter_bounds _ Hl) as [Hlo Hhi].
      rewrite convert_windows_path_canonical; [| |done].
      * by replace (letter - 32 + 32) with letter by lia.
      * unfold is_upper_letter. apply andb_true_iff. rewrite !N.leb_le. lia.
    + apply (insert_changes _ SLASH (u "/mnt/" ++ [letter])).
Qed.

Lemma round_trips_double_the_first_separator_witness :
  [u "a"; u "b"] ≠ []
  ∧ Forall is_segment [u "a"; u "b"]
  ∧ (is_upper_letter 67 = true
     ∧ host_path 67 [u "a"; u "b"] = u "C:\a\b"
     ∧ (guest ← convert_windows_path no_case (host_path 67 [u "a"; u "b"]);
        convert_to_windows_path no_case guest) = Return (u "C:\\a\b"))
  ∧ (is_lower_letter 120 = true
     ∧ guest_path 120 [u "a"; u "b"] = u "/mnt/x/a/b"
     ∧ (host ← convert_to_windows_path no_case (guest_path 120 [u "a"; u "b"]);
        convert_windows_path no_case host) = Return (u "/mnt/x//a/b")).
Proof.
  assert (Hsegs : Forall is_segment [u "a"; u "b"]).
  { repeat constructor; try discriminate; intros H; vm_compute in H;
      repeat (apply elem_of_cons in H as [H | H]; [discriminate|]);
      by apply elem_of_nil in H. }
  split; [done|]. split; [exact Hsegs|]. split.
  - split; [reflexivity|]. split; [vm_compute; reflexivity|].
    etransitivity;
      [exact (proj1 (proj1 (round_trips_double_the_first_separator no_case no_case
                              67 [u "a"; u "b"] ltac:(done) Hsegs) eq_refl))|].
    vm_compute. reflexivity.
  - split; [reflexivity|]. split; [vm_compute; reflexivity|].
    etransitivity;
      [exact (proj1 (proj2 (round_trips_double_the_first_separator no_case no_case
                              120 [u "a"; u "b"] ltac:(done) Hsegs) eq_refl))|].
    vm_compute. reflexivity.
Defined.

(* ================================================================== *)
(** * Further properties of the code *)
(* ================================================================== *)

(* ================================================================== *)
(** ** The command bridge, the listings, the paths and the quoting *)
(* ================================================================== *)

Section MoreStringFacts.

Lemma lstrip_of_unspaced_head (s : str) :
  (∀ c t, s = c :: t → isspace c = false) → lstrip s = s.
Proof.
  destruct s as [|c t]; [done|]. intros H. simpl. by rewrite (H c t).
Qed.

Lemma strip_of_trimmed (s : str) : trimmed s → strip s = s.
Proof.
  intros [Hhead Hlast]. unfold strip, rstrip.
  rewrite (lstrip_of_unspaced_head s Hhead).
  rewrite lstrip_of_unspaced_head; [apply rev_involutive|].
  intros c t Hrev. apply (Hlast (rev t)).
  rewrite <- (rev_involutive s), Hrev. reflexivity.
Qed.

Lemma strip_idempotent (s : str) : strip (strip s) = strip s.
Proof. apply strip_of_trimmed, strip_trimmed. Qed.

Lemma strip_subset (s : str) (c : char) : c ∈ strip s → c ∈ s.
Proof.
  intros H. destruct (strip_decompose s) as (l & r & Hs & _).
  rewrite Hs. rewrite !elem_of_app. auto.
Qed.

Lemma split_parts_without_sep (sep : char) (s : str) :
  Forall (λ part, sep ∉ part) (split sep s).
Proof.
  induction s as [|c r IH]; simpl.
  - repeat constructor. apply not_elem_of_nil.
  - destruct (c =? sep) eqn:Hc.
    + constructor; [apply not_elem_of_nil | exact IH].
    + apply N.eqb_neq in Hc.
      destruct (split sep r) as [|t ts].
      * constructor; [|constructor].
        apply not_elem_of_cons. split; [congruence | apply not_elem_of_nil].
      * inversion IH as [|? ? Ht Hts]; subst. constructor; [|done].
        apply not_elem_of_cons. split; [congruence | done].
Qed.

Lemma join_split (sep : char) (s : str) : join [sep] (split sep s) = s.
Proof.
  induction s as [|c r IH]; [done|]. simpl.
  destruct (split_has_head sep r) as (h & t & Hr). rewrite Hr in *.
  destruct (c =? sep) eqn:Hc.
  - apply N.eqb_eq in Hc. subst c.
    change (join [sep] ([] :: h :: t)) with ([sep] ++ join [sep] (h :: t)).
    by rewrite IH.
  - destruct t as [|h' t']; simpl in *; by rewrite IH.
Qed.

Lemma split_length_pos (sep : char) (s : str) : (1 ≤ length (split sep s))%nat.
Proof. destruct (split_has_head sep s) as (h & t & ->). simpl. lia. Qed.

Lemma startswith_app (s rest : str) : startswith (s ++ rest) s = true.
Proof. apply startswith_spec. eauto. Qed.

Lemma replace_from_skip (old new pre rest : str) :
  replace_from old new (pre ++ rest) (length pre) = replace_from old new rest 0.
Proof.
  induction pre as [|c pre IH]; simpl; [|done].
  by destruct rest.
Qed.

Lemma replace_from_match (old new rest : str) :
  old ≠ [] →
  replace_from old new (old ++ rest) 0 = new ++ replace_from old new rest 0.
Proof.
  destruct old as [|a old']; [done|]. intros _.
  change ((a :: old') ++ rest) with (a :: (old' ++ rest)).
  cbn [replace_from].
  change (a :: (old' ++ rest)) with ((a :: old') ++ rest).
  rewrite startswith_app.
  replace (length (a :: old') - 1)%nat with (length old') by (simpl; lia).
  by rewrite replace_from_skip.
Qed.

Lemma replace_from_other (old' new rest : str) (a c : char) :
  c ≠ a →
  replace_from (a :: old') new (c :: rest) 0
    = c :: replace_from (a :: old') new rest 0.
Proof.
  intros H. cbn [replace_from startswith].
  by rewrite (proj2 (N.eqb_neq c a)) by done.
Qed.

Lemma replace_each_char (s new : str) (a : char) :
  replace s [a] new = flat_map (expand_char a new) s.
Proof.
  unfold replace, expand_char. induction s as [|c r IH]; simpl; [done|].
  rewrite startswith_nil, andb_true_r.
  destruct (c =? a); simpl; by rewrite IH.
Qed.

Lemma escape_quotes_cons (c : char) (s : str) :
  escape_quotes (c :: s)
    = (if c =? QUOTE then ESCAPED_QUOTE else [c]) ++ escape_quotes s.
Proof. unfold escape_quotes. by rewrite !replace_each_char. Qed.

Lemma unescape_escape (s : str) : unescape_quotes (escape_quotes s) = s.
Proof.
  unfold unescape_quotes, ESCAPED_QUOTE.
  change (replace (escape_quotes s) [QUOTE; DQUOTE; QUOTE; DQUOTE; QUOTE] [QUOTE])
    with (replace_from ESCAPED_QUOTE [QUOTE] (escape_quotes s) 0).
  induction s as [|c r IH]; [done|].
  rewrite escape_quotes_cons.
  destruct (c =? QUOTE) eqn:Hc.
  - apply N.eqb_eq in Hc. subst c.
    rewrite replace_from_match by done. by rewrite IH.
  - apply N.eqb_neq in Hc. cbn [app].
    unfold ESCAPED_QUOTE at 1. rewrite replace_from_other by done.
    fold ESCAPED_QUOTE. by rewrite IH.
Qed.

Lemma escape_quotes_without_quote (s : str) : QUOTE ∉ s → escape_quotes s = s.
Proof.
  induction s as [|c r IH]; [done|]. intros H.
  apply not_elem_of_cons in H as [Hc Hr].
  rewrite escape_quotes_cons, IH by done.
  by rewrite (proj2 (N.eqb_neq c QUOTE)) by congruence.
Qed.

Lemma elem_of_replace_from (old new s : str) (k : nat) (c : char) :
  c ∈ replace_from old new s k → c ∈ s ∨ c ∈ new.
Proof.
  revert k. induction s as [|c0 r IH]; intros k; [by intros ?%elem_of_nil|].
  cbn [replace_from]. destruct k as [|k].
  - destruct (startswith (c0 :: r) old).
    + rewrite elem_of_app. intros [H | H]; [by right|].
      destruct (IH _ H); [left; by apply list_elem_of_further | by right].
    + rewrite elem_of_cons. intros [-> | H]; [left; apply list_elem_of_here|].
      destruct (IH _ H); [left; by apply list_elem_of_further | by right].
  - intros H. destruct (IH _ H); [left; by apply list_elem_of_further | by right].
Qed.

Lemma elem_of_replace (s old new : str) (c : char) :
  old ≠ [] → c ∈ replace s old new → c ∈ s ∨ c ∈ new.
Proof.
  destruct old as [|a old']; [done|]. intros _. apply elem_of_replace_from.
Qed.

End MoreStringFacts.

Section MoreBridgeFacts.
Variable run : launcher.

Lemma success_message_nonempty (op : bridge_op) :
  passes_stdout op = false → success_message op ≠ [].
Proof.
  destruct op; try discriminate; intros _ H; simpl in H;
    repeat (apply app_eq_nil in H as [? H]); try by vm_compute in H.
  all: match goal with Hx : u _ = [] |- _ => by vm_compute in Hx end.
Qed.

Lemma invoke_cases (op : bridge_op) (r : WSLCommandResult) :
  invoke run op = Return r →
  (∃ cp, run (argv_of op) (timeout_of op) = Return cp
         ∧ r = mkResult (cp_returncode cp)
                 (if passes_stdout op then strip (cp_stdout cp)
                  else if bool_decide (cp_returncode cp = 0%Z)
                       then success_message op else [])
                 (strip (cp_stderr cp)))
  ∨ (∃ e, run (argv_of op) (timeout_of op) = Raise e
          ∧ r = mkResult (-1)%Z []
                  (if names_timeout op && is_class TimeoutExpired e
                   then msg_timeout else exn_str e)).
Proof.
  intros H.
  destruct (run (argv_of op) (timeout_of op)) as [cp | e] eqn:Hrun.
  - left. exists cp. split; [done|].
    rewrite (invoke_completed run op cp Hrun) in H. congruence.
  - right. exists e. split; [done|].
    rewrite (invoke_raised run op e Hrun) in H. congruence.
Qed.

End MoreBridgeFacts.

(** X1.  The stdout of the outcome of the simple run, of the advanced run
    and of the status query is trimmed, also after a timeout or a launch
    error: white space neither leads nor ends it, so trimming it again
    changes nothing. *)
Theorem outcome_stdout_is_trimmed
    (run : launcher) (op : bridge_op) (r : WSLCommandResult) :
  invoke run op = Return r → passes_stdout op = true →
  trimmed (stdout r) ∧ strip (stdout r) = stdout r.
Proof.
  intros H Hop.
  assert (Ht : trimmed (stdout r)).
  { destruct (invoke_cases run op r H) as [(cp & _ & ->) | (e & _ & ->)]; simpl.
    - rewrite Hop. apply strip_trimmed.
    - split; [done | by intros [|? ?] ?]. }
  split; [exact Ht | by apply strip_of_trimmed].
Qed.

Lemma outcome_stdout_is_trimmed_witness :
  invoke (completes_with 0%Z (u "  hello  ") []) (OpSimple (u "echo hello") 5%Z)
    = Return sample_hello
  ∧ passes_stdout (OpSimple (u "echo hello") 5%Z) = true
  ∧ trimmed (stdout sample_hello)
  ∧ strip (stdout sample_hello) = stdout sample_hello.
Proof.
  assert (H :
    invoke (completes_with 0%Z (u "  hello  ") []) (OpSimple (u "echo hello") 5%Z)
      = Return sample_hello) by (vm_compute; reflexivity).
  split; [exact H|]. split; [reflexivity|].
  exact (outcome_stdout_is_trimmed
           (completes_with 0%Z (u "  hello  ") []) (OpSimple (u "echo hello") 5%Z)
           sample_hello H eq_refl).
Defined.

(** X2.  An outcome whose exit code is not -1 comes from a child process
    that completed: the launcher returned, the exit code is the child's and
    stderr is the child's stderr, trimmed. *)
Theorem exit_code_other_than_minus_one_is_the_childs
    (run : launcher) (op : bridge_op) (r : WSLCommandResult) :
  invoke run op = Return r → returncode r ≠ (-1)%Z →
  ∃ cp, run (argv_of op) (timeout_of op) = Return cp
        ∧ returncode r = cp_returncode cp
        ∧ stderr r = strip (cp_stderr cp).
Proof.
  intros H Hrc.
  destruct (invoke_cases run op r H) as [(cp & Hrun & ->) | (e & _ & ->)].
  - by exists cp.
  - by destruct Hrc.
Qed.

Lemma exit_code_other_than_minus_one_is_the_childs_witness :
  invoke (completes_with 2%Z [] (u "ls: cannot access")) (OpSimple (u "ls /nope") 30%Z)
    = Return sample_ls_failure
  ∧ returncode sample_ls_failure ≠ (-1)%Z
  ∧ ∃ cp, completes_with 2%Z [] (u "ls: cannot access")
            (argv_of (OpSimple (u "ls /nope") 30%Z))
            (timeout_of (OpSimple (u "ls /nope") 30%Z)) = Return cp
          ∧ returncode sample_ls_failure = cp_returncode cp
          ∧ stderr sample_ls_failure = strip (cp_stderr cp).
Proof.
  assert (H :
    invoke (completes_with 2%Z [] (u "ls: cannot access"))
           (OpSimple (u "ls /nope") 30%Z)
      = Return sample_ls_failure) by (vm_compute; reflexivity).
  assert (Hrc : returncode sample_ls_failure ≠ (-1)%Z) by discriminate.
  split; [exact H|]. split; [exact Hrc|].
  exact (exit_code_other_than_minus_one_is_the_childs
           (completes_with 2%Z [] (u "ls: cannot access"))
           (OpSimple (u "ls /nope") 30%Z) sample_ls_failure H Hrc).
Defined.

(** X3.  For the commands that answer with a fixed message (shutdown,
    terminate, set default, export, import, unregister, install) the stdout
    of the outcome is not empty exactly when the exit code is 0, and it is
    then the message of the command. *)
Theorem lifecycle_message_iff_exit_zero
    (run : launcher) (op : bridge_op) (r : WSLCommandResult) :
  passes_stdout op = false → invoke run op = Return r →
  (stdout r ≠ [] ↔ returncode r = 0%Z)
  ∧ (returncode r = 0%Z → stdout r = success_message op).
Proof.
  intros Hop H.
  pose proof (success_message_nonempty op Hop) as Hmsg.
  destruct (invoke_cases run op r H) as [(cp & _ & ->) | (e & _ & ->)]; simpl.
  - rewrite Hop. case_bool_decide as Hrc.
    + split; [split; [done | intros _; exact Hmsg] | done].
    + split; [split; [intros Hne; by destruct Hne | done] | done].
  - split; [split; [intros Hne; by destruct Hne | discriminate] | discriminate].
Qed.

Lemma lifecycle_message_iff_exit_zero_witness :
  passes_stdout (OpTerminate (u "Ubuntu")) = false
  ∧ invoke (completes_with 0%Z [] []) (OpTerminate (u "Ubuntu"))
      = Return sample_terminated
  ∧ (stdout sample_terminated ≠ [] ↔ returncode sample_terminated = 0%Z)
  ∧ (returncode sample_terminated = 0%Z →
       stdout sample_terminated = success_message (OpTerminate (u "Ubuntu"))).
Proof.
  assert (H :
    invoke (completes_with 0%Z [] []) (OpTerminate (u "Ubuntu"))
      = Return sample_terminated) by (vm_compute; reflexivity).
  split; [reflexivity|]. split; [exact H|].
  exact (lifecycle_message_iff_exit_zero
           (completes_with 0%Z [] []) (OpTerminate (u "Ubuntu"))
           sample_terminated eq_refl H).
Defined.

(** X4.  [install_distribution] runs the launcher with [--install], then
    the distribution when it is not empty, then [--web-download] and
    [--no-launch] when they are asked for, in this order and with a timeout
    of 300 seconds; an option left out adds no argument. *)
Theorem install_argument_vector
    (run : launcher) (distribution : str) (web_download no_launch : bool) :
  ∃ name_arg wd_flag nl_flag : list str,
    install_cmd_list distribution web_download no_launch
      = [wsl_path; u "--install"] ++ name_arg ++ wd_flag ++ nl_flag
    ∧ (distribution ≠ [] → name_arg = [distribution])
    ∧ (distribution = [] → name_arg = [])
    ∧ (web_download = true → wd_flag = [u "--web-download"])
    ∧ (web_download = false → wd_flag = [])
    ∧ (no_launch = true → nl_flag = [u "--no-launch"])
    ∧ (no_launch = false → nl_flag = [])
    ∧ (∀ cp,
         run ([wsl_path; u "--install"] ++ name_arg ++ wd_flag ++ nl_flag) 300%Z
           = Return cp →
         install_distribution run distribution web_download no_launch
           = Return (mkResult (cp_returncode cp)
                       (if bool_decide (cp_returncode cp = 0%Z)
                        then u "正在安装发行版..." else [])
                       (strip (cp_stderr cp)))).
Proof.
  exists (if truthy distribution then [distribution] else []),
         (if web_download then [u "--web-download"] else []),
         (if no_launch then [u "--no-launch"] else []).
  assert (Hvec :
    install_cmd_list distribution web_download no_launch
      = [wsl_path; u "--install"]
          ++ (if truthy distribution then [distribution] else [])
          ++ (if web_download then [u "--web-download"] else [])
          ++ (if no_launch then [u "--no-launch"] else [])).
  { unfold install_cmd_list.
    destruct (truthy distribution), web_download, no_launch; reflexivity. }
  split; [exact Hvec|].
  split; [by destruct distribution|]. split; [by intros ->|].
  split; [by intros ->|]. split; [by intros ->|].
  split; [by intros ->|]. split; [by intros ->|].
  intros cp Hrun. rewrite <- Hvec in Hrun.
  unfold install_distribution, lifecycle. by rewrite Hrun.
Qed.

(** X5.  [execute_command_with_distro] always returns an outcome.  With an
    empty distribution it is [execute_command]; with a distribution the
    argument vector is the launcher, [-d], the distribution, [sh], [-c] and
    the command.  When the launcher raises, the outcome has exit code -1, an
    empty stdout and the timeout message or the text of the exception; when
    it completes, the outcome has the exit code and the two trimmed
    streams. *)
Theorem distro_run_extends_simple_run
    (run : launcher) (command distribution : str) (timeout : Z) :
  (∃ r, execute_command_with_distro run command distribution timeout = Return r)
  ∧ (distribution = [] →
       execute_command_with_distro run command distribution timeout
         = execute_command run command timeout)
  ∧ (distribution ≠ [] →
       distro_cmd_list command distribution
         = [wsl_path; u "-d"; distribution; u "sh"; u "-c"; command])
  ∧ (∀ e, run (distro_cmd_list command distribution) timeout = Raise e →
       execute_command_with_distro run command distribution timeout
         = Return (mkResult (-1)%Z []
                     (if is_class TimeoutExpired e then msg_timeout
                      else exn_str e)))
  ∧ (∀ cp, run (distro_cmd_list command distribution) timeout = Return cp →
       execute_command_with_distro run command distribution timeout
         = Return (mkResult (cp_returncode cp) (strip (cp_stdout cp))
                     (strip (cp_stderr cp)))).
Proof.
  assert (Hraise : ∀ e,
    run (distro_cmd_list command distribution) timeout = Raise e →
    execute_command_with_distro run command distribution timeout
      = Return (mkResult (-1)%Z []
                  (if is_class TimeoutExpired e then msg_timeout else exn_str e))).
  { intros e H. unfold execute_command_with_distro. simpl. rewrite H. simpl.
    unfold on_timeout_or_error, is_class. by destruct (exn_class_of e). }
  assert (Hdone : ∀ cp,
    run (distro_cmd_list command distribution) timeout = Return cp →
    execute_command_with_distro run command distribution timeout
      = Return (mkResult (cp_returncode cp) (strip (cp_stdout cp))
                  (strip (cp_stderr cp)))).
  { intros cp H. unfold execute_command_with_distro. simpl. by rewrite H. }
  split; [|split; [|split; [|split]]]; try done.
  - destruct (run (distro_cmd_list command distribution) timeout) as [cp|e] eqn:H.
    + eexists. by apply Hdone.
    + eexists. by apply Hraise.
  - by intros ->.
  - intros Hd. unfold distro_cmd_list. by destruct distribution.
Qed.

Section MoreListingFacts.

Lemma online_entries_spec (line : str) :
  online_entries line = if truthy (strip line) then [strip line] else [].
Proof. reflexivity. Qed.

Lemma distro_entries_blank (line : str) :
  strip line = [] → distro_entries line = [].
Proof. intros H. unfold distro_entries. by rewrite distro_step_blank. Qed.

Lemma distro_entries_nonblank (line name : str) rest :
  strip line ≠ [] → split_ws line = name :: rest →
  distro_entries line =
    [dict_of [(u "名称", VStr name);
              (u "状态", VStr (default [] (split_ws line !! 1%nat)));
              (u "版本", VStr (default [] (split_ws line !! 2%nat)))]].
Proof.
  intros H Htok. unfold distro_entries.
  by rewrite (distro_step_nonblank [] line name rest H Htok).
Qed.

Lemma token_or_empty_no_space (line : str) (i : nat) :
  no_space (default [] (split_ws line !! i)).
Proof.
  destruct (split_ws line !! i) as [t|] eqn:Ht; [|constructor]. simpl.
  pose proof (split_ws_tokens line) as Hall.
  rewrite Forall_lookup in Hall. by destruct (Hall i t Ht).
Qed.

Lemma online_entries_wellformed (lines : list str) :
  Forall (λ line, NEWLINE ∉ line) lines →
  Forall (λ e, e ≠ [] ∧ trimmed e ∧ NEWLINE ∉ e)
         (flat_map online_entries lines).
Proof.
  intros Hlines. apply Forall_flat_map.
  eapply Forall_impl; [exact Hlines|].
  intros line Hline. rewrite online_entries_spec.
  destruct (strip line) as [|c t] eqn:Hs; simpl; [constructor|].
  constructor; [|constructor]. rewrite <- Hs.
  split; [by rewrite Hs|]. split; [apply strip_trimmed|].
  intros Hin. by apply strip_subset in Hin.
Qed.

Lemma distro_entries_wellformed (lines : list str) :
  Forall (λ d, ∃ name state version,
            d = dict_of [(u "名称", VStr name);
                         (u "状态", VStr state);
                         (u "版本", VStr version)]
            ∧ name ≠ [] ∧ no_space name ∧ no_space state ∧ no_space version)
         (flat_map distro_entries lines).
Proof.
  apply Forall_flat_map, Forall_forall. intros line _.
  destruct (decide (strip line = [])) as [Hs | Hs].
  - rewrite distro_entries_blank by done. constructor.
  - destruct (split_ws_of_nonblank_line line Hs) as (name & rest & Htok).
    rewrite (distro_entries_nonblank line name rest Hs Htok).
    constructor; [|constructor].
    exists name, (default [] (split_ws line !! 1%nat)),
      (default [] (split_ws line !! 2%nat)).
    split; [done|].
    pose proof (split_ws_tokens line) as Hall. rewrite Htok in Hall.
    inversion Hall as [|? ? [Hne Hns] _]; subst.
    repeat split; try done; apply token_or_empty_no_space.
Qed.

Lemma list_online_distributions_cases (run : launcher) :
  ∃ lines, list_online_distributions run = Return (flat_map online_entries lines)
           ∧ Forall (λ line, NEWLINE ∉ line) lines.
Proof.
  unfold list_online_distributions.
  destruct (run [wsl_path; u "-l"; u "--online"] 30%Z) as [cp|e]; simpl;
    [|by exists []].
  case_bool_decide as Hrc; simpl; [|by exists []].
  eexists. split; [by rewrite online_loop|].
  apply Forall_drop, split_parts_without_sep.
Qed.

Lemma list_distributions_cases (run : launcher) (l : list dict) :
  list_distributions run = Return l →
  ∃ lines, l = flat_map distro_entries lines.
Proof.
  unfold list_distributions.
  destruct (run [wsl_path; u "-l"; u "--verbose"] 10%Z) as [cp|e]; simpl;
    [|discriminate].
  case_bool_decide as Hrc; simpl; [|intros [= <-]; by exists []].
  rewrite distro_loop. simpl. intros [= <-]. eauto.
Qed.

End MoreListingFacts.

(** X6.  [list_online_distributions] returns a list whatever the launcher
    does, and every entry of it is non-empty, trimmed and free of line
    feeds. *)
Theorem online_listing_entries (run : launcher) :
  ∃ l, list_online_distributions run = Return l
       ∧ Forall (λ e, e ≠ [] ∧ trimmed e ∧ NEWLINE ∉ e) l.
Proof.
  destruct (list_online_distributions_cases run) as (lines & Hl & Hlines).
  eexists. split; [exact Hl|]. by apply online_entries_wellformed.
Qed.

(** X7.  Every descriptor [list_distributions] returns is a dictionary of
    exactly a name, a state and a version; the name is not empty, and none
    of the three holds white space. *)
Theorem distribution_descriptors (run : launcher) (l : list dict) :
  list_distributions run = Return l →
  Forall (λ d, ∃ name state version,
            d = dict_of [(u "名称", VStr name);
                         (u "状态", VStr state);
                         (u "版本", VStr version)]
            ∧ name ≠ [] ∧ no_space name ∧ no_space state ∧ no_space version) l.
Proof.
  intros Hl. destruct (list_distributions_cases run l Hl) as [lines ->].
  apply distro_entries_wellformed.
Qed.

Lemma distribution_descriptors_witness :
  list_distributions (completes_with 0%Z sample_distributions [])
    = Return sample_descriptors
  ∧ Forall (λ d, ∃ name state version,
              d = dict_of [(u "名称", VStr name);
                           (u "状态", VStr state);
                           (u "版本", VStr version)]
              ∧ name ≠ [] ∧ no_space name ∧ no_space state ∧ no_space version)
      sample_descriptors.
Proof.
  assert (H :
    list_distributions (completes_with 0%Z sample_distributions [])
      = Return sample_descriptors) by (cbv -[dict_of]; reflexivity).
  split; [exact H|].
  exact (distribution_descriptors _ _ H).
Defined.

(** X8.  [get_wsl_version], [list_distributions] and
    [get_default_distribution] have no handler: each of them raises an
    exception exactly when the launcher raises it. *)
Theorem unguarded_queries_raise_with_the_launcher (run : launcher) (e : exn) :
  (get_wsl_version run = Raise e
     ↔ run [wsl_path; u "--version"] 10%Z = Raise e)
  ∧ (list_distributions run = Raise e
       ↔ run [wsl_path; u "-l"; u "--verbose"] 10%Z = Raise e)
  ∧ (get_default_distribution run = Raise e
       ↔ run [wsl_path; u "-e"; u "echo"; u "$WSL_DISTRO_NAME"] 10%Z = Raise e).
Proof.
  unfold get_wsl_version, list_distributions, get_default_distribution.
  split; [|split].
  - destruct (run [wsl_path; u "--version"] 10%Z); simpl;
      unfold mret, pyresult_ret; split; congruence.
  - destruct (run [wsl_path; u "-l"; u "--verbose"] 10%Z); simpl;
      [|split; congruence].
    case_bool_decide; simpl; [rewrite distro_loop|];
      unfold mret, pyresult_ret; split; discriminate.
  - destruct (run [wsl_path; u "-e"; u "echo"; u "$WSL_DISTRO_NAME"] 10%Z);
      simpl; unfold mret, pyresult_ret; split; congruence.
Qed.

Section MorePathFacts.
Variable unicode_lower unicode_upper : char → str.

Lemma swap_char_removes (a b : char) (s : str) :
  a ≠ b → a ∉ map (swap_char a b) s.
Proof.
  intros Hab. induction s as [|c r IH]; simpl; [apply not_elem_of_nil|].
  apply not_elem_of_cons. split; [|done].
  unfold swap_char. destruct (c =? a) eqn:Hc; [done|].
  apply N.eqb_neq in Hc. congruence.
Qed.

Lemma no_slash_no_mnt (s : str) : SLASH ∉ s → startswith s (u "/mnt/") = false.
Proof.
  change (u "/mnt/") with [SLASH; 109; 110; 116; SLASH].
  destruct s as [|c t]; [done|]. intros H.
  apply not_elem_of_cons in H as [Hc _]. simpl.
  by rewrite (proj2 (N.eqb_neq c SLASH)) by congruence.
Qed.

Lemma split_mnt (rest : str) :
  split SLASH (u "/mnt/" ++ rest) = [] :: u "mnt" :: split SLASH rest.
Proof.
  change (u "/mnt/") with [SLASH; 109; 110; 116; SLASH].
  change (u "mnt") with [109; 110; 116].
  destruct (split_has_head SLASH rest) as (h & t & Hr).
  simpl. rewrite Hr. reflexivity.
Qed.

Lemma convert_windows_path_matched (c c' : char) (t : str) :
  c' = COLON →
  convert_windows_path unicode_lower (c :: c' :: t)
    = Return (u "/mnt/" ++ lower unicode_lower [c] ++ u "/"
                ++ replace (replace t [BACKSLASH] (u "/")) (u "//") (u "/")).
Proof.
  intros ->. unfold convert_windows_path.
  cbn [length Nat.leb andb lookup list_lookup index].
  rewrite bool_decide_eq_true_2 by done. reflexivity.
Qed.

Lemma convert_to_windows_path_matched (rest h : str) (t : list str) :
  split SLASH rest = h :: t →
  convert_to_windows_path unicode_upper (u "/mnt/" ++ rest)
    = Return (map (swap_char SLASH BACKSLASH)
                (upper unicode_upper h ++ [COLON; BACKSLASH] ++ join (u "/") t)).
Proof.
  intros Hr. unfold convert_to_windows_path.
  rewrite startswith_app, split_mnt, Hr.
  cbn [length Nat.leb index lookup list_lookup mbind pyresult_bind].
  change (u "/") with [SLASH]. rewrite replace_one_char.
  reflexivity.
Qed.

End MorePathFacts.

(** X9.  [convert_windows_path] returns for every input, and converting
    its result again gives the result back. *)
Theorem convert_windows_path_is_idempotent
    (unicode_lower : char → str) (s : str) :
  ∃ r, convert_windows_path unicode_lower s = Return r
       ∧ convert_windows_path unicode_lower r = Return r.
Proof.
  destruct (decide (s !! 1%nat = Some COLON)) as [H | H].
  - destruct s as [|c [|c' t]]; try discriminate.
    injection H as ->.
    eexists. split; [by apply convert_windows_path_matched|].
    apply convert_windows_path_no_colon.
    change (u "/mnt/") with [SLASH; 109; 110; 116; SLASH]. discriminate.
  - exists s. split; by apply convert_windows_path_no_colon.
Qed.

(** X10.  [convert_to_windows_path] returns for every input.  The result
    for an input that starts with [/mnt/] holds no forward slash, and
    converting a result again gives it back. *)
Theorem convert_to_windows_path_leaves_no_slash
    (unicode_upper : char → str) (s : str) :
  ∃ r, convert_to_windows_path unicode_upper s = Return r
       ∧ ((∃ rest, s = u "/mnt/" ++ rest) → SLASH ∉ r)
       ∧ convert_to_windows_path unicode_upper r = Return r.
Proof.
  destruct (startswith s (u "/mnt/")) eqn:E.
  - apply startswith_spec in E as [rest ->].
    destruct (split_has_head SLASH rest) as (h & t & Hr).
    eexists. split; [by apply (convert_to_windows_path_matched _ rest h t)|].
    assert (Hno : SLASH ∉ map (swap_char SLASH BACKSLASH)
              (upper unicode_upper h ++ [COLON; BACKSLASH] ++ join (u "/") t))
      by by apply swap_char_removes.
    split; [done|].
    by apply convert_to_windows_path_no_mnt, no_slash_no_mnt.
  - exists s. split; [by apply convert_to_windows_path_no_mnt|].
    split; [|by apply convert_to_windows_path_no_mnt].
    intros [rest ->]. by rewrite startswith_app in E.
Qed.

(** X11.  For an input whose second character is a colon,
    [convert_windows_path] returns [/mnt/], the lower-cased first character,
    a slash and a tail.  The tail holds no backslash, and it is the rest of
    the input when that rest holds no backslash and no two slashes in a
    row. *)
Theorem guest_path_shape
    (unicode_lower : char → str) (c : char) (t : str) :
  ∃ tail,
    convert_windows_path unicode_lower (c :: COLON :: t)
      = Return (u "/mnt/" ++ lower unicode_lower [c] ++ u "/" ++ tail)
    ∧ (BACKSLASH ∉ tail)
    ∧ (BACKSLASH ∉ t → has_doubled_slash t = false → tail = t).
Proof.
  exists (replace (replace t [BACKSLASH] (u "/")) (u "//") (u "/")).
  split; [by apply convert_windows_path_matched|].
  change (u "/") with [SLASH]. change (u "//") with [SLASH; SLASH].
  rewrite replace_one_char. split.
  - intros Hin.
    assert (Hold : [SLASH; SLASH] ≠ []) by done.
    destruct (elem_of_replace _ _ _ _ Hold Hin) as [H | H].
    + by apply (swap_char_removes BACKSLASH SLASH t).
    + apply list_elem_of_singleton in H. discriminate.
  - intros Hno Hdbl. rewrite map_swap_id by done.
    by apply replace_without_doubled_slash.
Qed.

(** X12.  The quoting of [write_file] and [append_to_file] can be undone:
    replacing the escape sequence by a single quote gives the content back.
    So two contents are quoted alike only when they are equal, the commands
    built for one path and two contents are equal only when the contents
    are, and a content without a single quote is left as it is. *)
Theorem escape_quotes_loses_nothing (content other file_path : str) :
  unescape_quotes (escape_quotes content) = content
  ∧ (escape_quotes content = escape_quotes other → content = other)
  ∧ (write_file_command file_path content = write_file_command file_path other
       → content = other)
  ∧ (append_to_file_command file_path content
       = append_to_file_command file_path other → content = other)
  ∧ (QUOTE ∉ content → escape_quotes content = content).
Proof.
  assert (Hinj : escape_quotes content = escape_quotes other → content = other).
  { intros H. rewrite <- (unescape_escape content), <- (unescape_escape other).
    by rewrite H. }
  split; [apply unescape_escape|]. split; [exact Hinj|].
  split; [|split; [|apply escape_quotes_without_quote]].
  - unfold write_file_command. cbn zeta. intros H.
    apply app_inv_head, app_inv_tail in H. by apply Hinj.
  - unfold append_to_file_command. cbn zeta. intros H.
    apply app_inv_head, app_inv_tail in H. by apply Hinj.
Qed.


(* ================================================================== *)
(** ** The contract of the file operations *)
(* ================================================================== *)

Section MoreFileFacts.
Variable run : launcher.
Variable int_of_str : str → option Z.

Lemma call_cases (command : str) (result : WSLCommandResult) :
  call run command = Return result →
  (∃ cp, run [wsl_path; u "sh"; u "-c"; command] 30%Z = Return cp
         ∧ result = mkResult (cp_returncode cp) (strip (cp_stdout cp))
                      (strip (cp_stderr cp)))
  ∨ (∃ e, run [wsl_path; u "sh"; u "-c"; command] 30%Z = Raise e
          ∧ result = mkResult (-1)%Z []
                       (if is_class TimeoutExpired e
                        then msg_timeout else exn_str e)).
Proof. apply (invoke_cases run (OpSimple command 30%Z)). Qed.

Lemma call_stdout_trimmed (command : str) (result : WSLCommandResult) :
  call run command = Return result → trimmed (stdout result).
Proof.
  intros H. destruct (call_cases command result H)
    as [(cp & _ & ->) | (e & _ & ->)]; simpl.
  - apply strip_trimmed.
  - split; [done | by intros [|? ?] ?].
Qed.

Lemma perform_by_exit_code (op : file_op) (result : WSLCommandResult) :
  kind_of op = ByExitCode →
  call run (command_of op) = Return result →
  ∃ ok ko,
    perform run int_of_str op = Return (if succeeded result then ok else ko)
    ∧ reports_success ok ∧ error_detail ok = None
    ∧ reports_failure ko ∧ error_detail ko = Some (VStr (stderr result)).
Proof.
  intros Hkind Hcall.
  destruct op; try discriminate Hkind; simpl in *;
    unfold read_file, write_file, append_to_file, create_directory,
      list_directory, delete_file, copy_file, move_file, get_file_info,
      get_current_directory, change_directory, read_file_lines,
      search_in_file;
    rewrite Hcall; simpl; rewrite ?listing_loop; simpl;
    unfold mret, pyresult_ret;
    lazymatch goal with
    | |- ∃ ok ko, (if succeeded ?r then Return ?a else Return ?b) = _ ∧ _ =>
        exists a, b; split; [by destruct (succeeded r)|];
        repeat split; dict_lookup
    end.
Qed.

Lemma perform_check (c : check) (path : str) (result : WSLCommandResult) :
  call run (check_command c path) = Return result →
  check_run run c path
    = Return (dict_of [(K_SUCCESS, VBool true);
                       (K_PATH, VStr path);
                       (check_key c,
                        VBool (bool_decide (stdout result = check_sentinel c)))]).
Proof.
  intros Hcall. destruct c; simpl in *;
    unfold file_exists, is_directory, is_file; by rewrite Hcall.
Qed.

Lemma perform_count (file_path : str) (result : WSLCommandResult) :
  call run (count_lines_command file_path) = Return result →
  ∃ d, count_lines run int_of_str file_path = Return d
    ∧ ((reports_success d ∧ error_detail d = None
        ∧ returncode result = 0%Z
        ∧ ∃ first n, split_ws (strip (stdout result)) !! 0%nat = Some first
                     ∧ int_of_str first = Some n
                     ∧ d !! u "行数" = Some (VInt n))
       ∨ (reports_failure d
          ∧ error_detail d
              = Some (VStr (if succeeded result
                            then u "无法解析行数" else stderr result)))).
Proof.
  intros Hcall. unfold count_lines. rewrite Hcall. simpl.
  unfold succeeded. case_bool_decide as Hrc.
  - destruct (split_ws (strip (stdout result))) as [|first rest] eqn:Htok;
      cbn [index lookup list_lookup mbind pyresult_bind try_except].
    + eexists. split; [reflexivity|]. right. split; dict_lookup.
    + unfold py_int. destruct (int_of_str first) as [n|] eqn:Hint;
        cbn [mbind pyresult_bind try_except mret pyresult_ret is_class
             exn_class_of orb].
      * eexists. split; [reflexivity|]. left.
        split; [dict_lookup|]. split; [dict_lookup|]. split; [done|].
        exists first, n. split; [done|]. split; [done|]. dict_lookup.
      * eexists. split; [reflexivity|]. right. split; dict_lookup.
  - eexists. split; [reflexivity|]. right. split; dict_lookup.
Qed.

Lemma kind_always_success (op : file_op) :
  kind_of op = AlwaysSuccess →
  ∃ c path, command_of op = check_command c path
            ∧ perform run int_of_str op = check_run run c path.
Proof.
  destruct op; try discriminate; intros _.
  - by exists CheckExists, file_path.
  - by exists CheckIsDir, path.
  - by exists CheckIsFile, path.
Qed.

Lemma kind_parses_count (op : file_op) :
  kind_of op = ParsesCount →
  ∃ file_path, command_of op = count_lines_command file_path
               ∧ perform run int_of_str op = count_lines run int_of_str file_path.
Proof. destruct op; try discriminate; intros _. by exists file_path. Qed.

(** The contract of every operation. *)
Lemma perform_contract (op : file_op) :
  ∃ d, perform run int_of_str op = Return d
    ∧ ((reports_success d ∧ error_detail d = None)
       ∨ (reports_failure d ∧ ∃ msg, error_detail d = Some (VStr msg))).
Proof.
  destruct (call_returns run (command_of op)) as [result Hcall].
  destruct (kind_of op) eqn:Hkind.
  - destruct (perform_by_exit_code op result Hkind Hcall)
      as (ok & ko & -> & Hok & Hoke & Hko & Hkoe).
    eexists. split; [reflexivity|].
    destruct (succeeded result); [left | right]; eauto.
  - destruct (kind_always_success op Hkind) as (c & path & Hcmd & ->).
    rewrite Hcmd in Hcall. rewrite (perform_check c path result Hcall).
    eexists. split; [reflexivity|]. left.
    destruct (check_reports c path
                (bool_decide (stdout result = check_sentinel c)))
      as (? & ? & _). done.
  - destruct (kind_parses_count op Hkind) as (file_path & Hcmd & ->).
    rewrite Hcmd in Hcall.
    destruct (perform_count file_path result Hcall)
      as (d & -> & [(? & ? & _) | (? & ?)]);
      eexists; (split; [reflexivity|]); [left | right]; eauto.
Qed.

Lemma file_tool_perform (op : file_op) :
  file_tool run int_of_str op = perform run int_of_str op.
Proof. by destruct op. Qed.

End MoreFileFacts.

(** X13.  Every file tool of the server returns a dictionary and raises
    nothing, whatever the launcher does.  The dictionary reports success or
    failure, and it holds an error detail, a string, exactly when it reports
    failure. *)
Theorem file_tool_contract
    (run : launcher) (int_of_str : str → option Z) (op : file_op) :
  ∃ d, file_tool run int_of_str op = Return d
    ∧ (reports_success d ∨ reports_failure d)
    ∧ (reports_success d ↔ error_detail d = None)
    ∧ (reports_failure d ↔ ∃ msg, error_detail d = Some (VStr msg)).
Proof.
  rewrite file_tool_perform.
  destruct (perform_contract run int_of_str op)
    as (d & Hd & [[Hs He] | [Hf (msg & He)]]); exists d; (split; [done|]).
  - split; [by left|]. split; [done|]. split.
    + intros Hf. by apply success_excludes_failure in Hf.
    + intros (msg & Hmsg). congruence.
  - split; [by right|]. split; [|split; eauto]. split.
    + intros Hs. by apply success_excludes_failure in Hf.
    + congruence.
Qed.

(** X14.  When the launcher raises, every file operation other than the
    three checks reports failure, with the timeout message as the error
    detail after a timeout and the text of the exception otherwise; the
    three checks report success and hold no error detail. *)
Theorem launcher_failure_reaches_the_file_operations
    (run : launcher) (int_of_str : str → option Z) (op : file_op) (e : exn) :
  run [wsl_path; u "sh"; u "-c"; command_of op] 30%Z = Raise e →
  ∃ d, perform run int_of_str op = Return d
    ∧ match kind_of op with
      | AlwaysSuccess => reports_success d ∧ error_detail d = None
      | _ =>
          reports_failure d
          ∧ error_detail d
              = Some (VStr (if is_class TimeoutExpired e
                            then msg_timeout else exn_str e))
      end.
Proof.
  intros Hrun.
  pose proof (invoke_raised run (OpSimple (command_of op) 30%Z) e Hrun) as Hcall.
  change (invoke run (OpSimple (command_of op) 30%Z))
    with (call run (command_of op)) in Hcall.
  cbn [names_timeout andb] in Hcall.
  destruct (kind_of op) eqn:Hkind.
  - destruct (perform_by_exit_code run int_of_str op _ Hkind Hcall)
      as (ok & ko & -> & _ & _ & Hko & Hkoe).
    eexists. split; [reflexivity|]. by cbn [succeeded returncode bool_decide].
  - destruct (kind_always_success run int_of_str op Hkind)
      as (c & path & Hcmd & ->).
    rewrite Hcmd in Hcall. rewrite (perform_check run c path _ Hcall).
    eexists. split; [reflexivity|].
    destruct (check_reports c path
      (bool_decide (stdout (mkResult (-1)%Z []
         (if is_class TimeoutExpired e then msg_timeout else exn_str e))
                    = check_sentinel c))) as (? & ? & _). done.
  - destruct (kind_parses_count run int_of_str op Hkind)
      as (file_path & Hcmd & ->).
    rewrite Hcmd in Hcall.
    destruct (perform_count run int_of_str file_path _ Hcall)
      as (d & -> & [(_ & _ & Hrc & _) | (Hf & He)]); [discriminate Hrc|].
    eexists. split; [reflexivity|]. done.
Qed.

Lemma launcher_failure_reaches_the_file_operations_witness :
  raises sample_timeout
    [wsl_path; u "sh"; u "-c"; command_of (FDelete (u "/tmp/x") false)] 30%Z
    = Raise sample_timeout
  ∧ ∃ d, perform (raises sample_timeout) digits_only (FDelete (u "/tmp/x") false)
           = Return d
      ∧ reports_failure d
      ∧ error_detail d = Some (VStr msg_timeout).
Proof.
  split; [reflexivity|].
  exact (launcher_failure_reaches_the_file_operations
           (raises sample_timeout) digits_only (FDelete (u "/tmp/x") false)
           sample_timeout eq_refl).
Defined.

(** X15.  [file_exists], [is_directory] and [is_file] always report
    success and echo the path.  Their flag is true exactly when the launcher
    completed and its trimmed stdout is the sentinel of the check; the exit
    code plays no part, and the flag is false when the launcher raises. *)
Theorem check_flag_is_sentinel_match
    (run : launcher) (c : check) (path : str) :
  ∃ d b, check_run run c path = Return d
    ∧ reports_success d
    ∧ d !! K_PATH = Some (VStr path)
    ∧ d !! check_key c = Some (VBool b)
    ∧ (b = true ↔
         ∃ cp, run [wsl_path; u "sh"; u "-c"; check_command c path] 30%Z
                 = Return cp
               ∧ strip (cp_stdout cp) = check_sentinel c).
Proof.
  destruct (call_returns run (check_command c path)) as [result Hcall].
  rewrite (perform_check run c path result Hcall).
  exists (dict_of [(K_SUCCESS, VBool true); (K_PATH, VStr path);
                   (check_key c,
                    VBool (bool_decide (stdout result = check_sentinel c)))]),
    (bool_decide (stdout result = check_sentinel c)).
  split; [done|].
  destruct (check_reports c path
              (bool_decide (stdout result = check_sentinel c)))
    as (Hs & _ & Hp & Hk).
  split; [done|]. split; [done|]. split; [done|].
  rewrite bool_decide_eq_true.
  destruct (call_cases run _ result Hcall)
    as [(cp & Hrun & ->) | (e & Hrun & ->)]; simpl; rewrite Hrun.
  - split.
    + intros H. by exists cp.
    + by intros (cp' & [= <-] & H).
  - split.
    + intros H. by destruct c.
    + by intros (cp' & ? & _).
Qed.


(* ================================================================== *)
(** ** What the file operations return *)
(* ================================================================== *)

Section JoinFacts.

Lemma join_cons (sep p : str) (rest : list str) :
  ∃ more, join sep (p :: rest) = p ++ more.
Proof.
  destruct rest as [|q rest]; simpl; [exists []; by rewrite app_nil_r | eauto].
Qed.

Lemma join_snoc (sep p : str) (parts : list str) :
  ∃ before, join sep (parts ++ [p]) = before ++ p.
Proof.
  induction parts as [|q parts [before IH]]; [by exists []|].
  destruct parts as [|q' parts'].
  - exists (q ++ sep). simpl. by rewrite <- app_assoc.
  - exists (q ++ sep ++ before).
    change (join sep ((q :: q' :: parts') ++ [p]))
      with (q ++ sep ++ join sep ((q' :: parts') ++ [p])).
    rewrite IH. by rewrite <- !app_assoc.
Qed.

Lemma elem_of_join (sep : str) (parts : list str) (c : char) :
  c ∈ join sep parts → c ∈ sep ∨ ∃ p, p ∈ parts ∧ c ∈ p.
Proof.
  induction parts as [|p parts IH]; [by intros ?%elem_of_nil|].
  destruct parts as [|q parts'].
  - intros H. right. exists p. split; [apply list_elem_of_here | done].
  - change (join sep (p :: q :: parts'))
      with (p ++ sep ++ join sep (q :: parts')).
    rewrite !elem_of_app. intros [H | [H | H]].
    + right. exists p. split; [apply list_elem_of_here | done].
    + by left.
    + destruct (IH H) as [? | (p' & Hp' & Hc)]; [by left|].
      right. exists p'. split; [by apply list_elem_of_further | done].
Qed.

(** Tokens joined by single spaces: a name that is not empty, that white
    space neither leads nor ends, and that holds no line feed. *)
Lemma join_tokens (tokens : list str) :
  tokens ≠ [] →
  Forall (λ t, t ≠ [] ∧ no_space t) tokens →
  join (u " ") tokens ≠ [] ∧ trimmed (join (u " ") tokens)
  ∧ NEWLINE ∉ join (u " ") tokens.
Proof.
  intros Hne Hall. split; [|split; [split|]].
  - destruct tokens as [|t ts]; [done|].
    inversion Hall as [|? ? [Ht _] _]; subst.
    destruct (join_cons (u " ") t ts) as [more ->].
    by destruct t.
  - intros c s Hs. destruct tokens as [|t ts]; [done|].
    inversion Hall as [|? ? [Ht Hns] _]; subst.
    destruct (join_cons (u " ") t ts) as [more Hj]. rewrite Hj in Hs.
    destruct t as [|c' t']; [done|]. injection Hs as <- _.
    by inversion Hns.
  - intros s c Hs.
    destruct (exists_last Hne) as (ts & t & ->).
    apply Forall_app in Hall as [_ Hall].
    inversion Hall as [|? ? [Ht Hns] _]; subst.
    destruct (join_snoc (u " ") t ts) as [before Hj]. rewrite Hj in Hs.
    destruct (exists_last Ht) as (t' & c' & ->).
    rewrite app_assoc in Hs. apply app_inj_tail in Hs as [_ <-].
    apply Forall_app in Hns as [_ Hns]. by inversion Hns.
  - intros Hin. apply elem_of_join in Hin as [Hin | (p & Hp & Hin)].
    + change (u " ") with [SPACE] in Hin.
      apply list_elem_of_singleton in Hin. discriminate.
    + rewrite Forall_forall in Hall. destruct (Hall p Hp) as [_ Hns].
      unfold no_space in Hns. rewrite Forall_forall in Hns.
      by specialize (Hns _ Hin).
Qed.

Lemma line_entries_shape (line : str) :
  Forall (λ item, ∃ name perms,
            item = VDict (dict_of
                     [(K_NAME, VStr name); (K_PERMS, VStr perms);
                      (K_TYPE, VStr (if startswith perms (u "d")
                                     then T_DIRECTORY else T_FILE))])
            ∧ perms ≠ [] ∧ no_space perms
            ∧ name ≠ [] ∧ trimmed name ∧ NEWLINE ∉ name)
         (line_entries line).
Proof.
  unfold line_entries.
  destruct (Nat.lt_ge_cases (length (split_ws line)) 9) as [H | H].
  - rewrite listing_step_short by done. constructor.
  - destruct (split_ws line) as [|perms rest] eqn:Htok; [simpl in H; lia|].
    rewrite <- Htok in H.
    rewrite (listing_step_long [] line perms rest Htok H).
    constructor; [|constructor].
    exists (join (u " ") (drop 8 (split_ws line))), perms.
    split; [done|].
    pose proof (split_ws_tokens line) as Hall.
    assert (Hperms : perms ≠ [] ∧ no_space perms).
    { rewrite Htok in Hall. by inversion Hall. }
    destruct Hperms as [Hp1 Hp2]. split; [done|]. split; [done|].
    apply join_tokens.
    + intros Hnil. apply (f_equal length) in Hnil.
      rewrite length_drop in Hnil. simpl in Hnil. lia.
    + by apply Forall_drop.
Qed.

End JoinFacts.

(** X16.  On exit code 0 [list_directory] reports success and returns the
    entries together with their number.  Every entry is a dictionary of a
    name, a permission string and a type; the permission string is not empty
    and holds no white space, the name is not empty, is trimmed and holds no
    line feed, and the type is directory or file by the first letter of the
    permission string. *)
Theorem directory_listing_entries
    (run : launcher) (dir_path : str) (result : WSLCommandResult) :
  call run (list_directory_command dir_path) = Return result →
  returncode result = 0%Z →
  ∃ d items,
    list_directory run dir_path = Return d
    ∧ reports_success d
    ∧ d !! K_CONTENT = Some (VList items)
    ∧ d !! u "项目数量" = Some (VInt (Z.of_nat (length items)))
    ∧ Forall (λ item, ∃ name perms,
                item = VDict (dict_of
                         [(K_NAME, VStr name); (K_PERMS, VStr perms);
                          (K_TYPE, VStr (if startswith perms (u "d")
                                         then T_DIRECTORY else T_FILE))])
                ∧ perms ≠ [] ∧ no_space perms
                ∧ name ≠ [] ∧ trimmed name ∧ NEWLINE ∉ name) items.
Proof.
  intros Hcall Hrc.
  eexists. exists (flat_map line_entries (split NEWLINE (strip (stdout result)))).
  split.
  { unfold list_directory. rewrite Hcall. simpl.
    unfold succeeded. rewrite bool_decide_eq_true_2 by done.
    by rewrite listing_loop. }
  split; [dict_lookup|]. split; [dict_lookup|]. split; [dict_lookup|].
  apply Forall_flat_map, Forall_forall. intros line _.
  apply line_entries_shape.
Qed.

Lemma directory_listing_entries_witness :
  call (completes_with 0%Z sample_listing []) (list_directory_command (u "/home"))
    = Return (mkResult 0%Z sample_listing [])
  ∧ returncode (mkResult 0%Z sample_listing []) = 0%Z
  ∧ ∃ d items,
      list_directory (completes_with 0%Z sample_listing []) (u "/home") = Return d
      ∧ reports_success d
      ∧ d !! K_CONTENT = Some (VList items)
      ∧ d !! u "项目数量" = Some (VInt (Z.of_nat (length items))).
Proof.
  assert (Hcall :
    call (completes_with 0%Z sample_listing []) (list_directory_command (u "/home"))
      = Return (mkResult 0%Z sample_listing [])) by (vm_compute; reflexivity).
  split; [exact Hcall|]. split; [reflexivity|].
  destruct (directory_listing_entries _ _ _ Hcall eq_refl)
    as (d & items & Hd & Hs & Hcontent & Hcount & _).
  exists d, items.
  split; [exact Hd|]. split; [exact Hs|]. split; [exact Hcontent | exact Hcount].
Defined.

(** X17.  On exit code 0 [search_in_file] reports success and returns the
    lines of the output with their number: joined by line feeds the lines
    give the stdout of the outcome back, no line holds a line feed, and the
    list is empty exactly when the stdout is empty. *)
Theorem search_results_are_the_output_lines
    (run : launcher) (file_path pattern : str) (use_regex : bool)
    (result : WSLCommandResult) :
  call run (search_in_file_command file_path pattern use_regex) = Return result →
  returncode result = 0%Z →
  ∃ d lines,
    search_in_file run file_path pattern use_regex = Return d
    ∧ reports_success d
    ∧ d !! u "匹配结果" = Some (VList (VStr <$> lines))
    ∧ d !! u "匹配行数" = Some (VInt (Z.of_nat (length lines)))
    ∧ (lines = [] ↔ stdout result = [])
    ∧ join [NEWLINE] lines = stdout result
    ∧ Forall (λ line, NEWLINE ∉ line) lines.
Proof.
  intros Hcall Hrc.
  pose proof (call_stdout_trimmed run _ result Hcall) as Htrim.
  apply strip_of_trimmed in Htrim.
  unfold search_in_file. rewrite Hcall. simpl.
  unfold succeeded. rewrite bool_decide_eq_true_2 by done.
  eexists. exists (if truthy (stdout result)
                   then split NEWLINE (strip (stdout result)) else []).
  split; [reflexivity|].
  split; [dict_lookup|]. split; [dict_lookup|]. split; [dict_lookup|].
  rewrite Htrim.
  destruct (stdout result) as [|c t] eqn:Hout.
  - split; [done|]. split; [done | constructor].
  - cbn [truthy]. split; [|split].
    + destruct (split_has_head NEWLINE (c :: t)) as (h & rest & ->). done.
    + apply join_split.
    + apply split_parts_without_sep.
Qed.

Lemma search_results_are_the_output_lines_witness :
  call (completes_with 0%Z sample_matches [])
       (search_in_file_command (u "/tmp/x") (u "alpha") false)
    = Return (mkResult 0%Z sample_matches [])
  ∧ returncode (mkResult 0%Z sample_matches []) = 0%Z
  ∧ ∃ d lines,
      search_in_file (completes_with 0%Z sample_matches [])
        (u "/tmp/x") (u "alpha") false = Return d
      ∧ d !! u "匹配行数" = Some (VInt (Z.of_nat (length lines)))
      ∧ join [NEWLINE] lines = stdout (mkResult 0%Z sample_matches []).
Proof.
  assert (Hcall :
    call (completes_with 0%Z sample_matches [])
         (search_in_file_command (u "/tmp/x") (u "alpha") false)
      = Return (mkResult 0%Z sample_matches [])) by (vm_compute; reflexivity).
  split; [exact Hcall|]. split; [reflexivity|].
  destruct (search_results_are_the_output_lines
              (completes_with 0%Z sample_matches [])
              (u "/tmp/x") (u "alpha") false
              (mkResult 0%Z sample_matches []) Hcall eq_refl)
    as (d & lines & Hd & _ & _ & Hcount & _ & Hjoin & _).
  exists d, lines.
  split; [exact Hd|]. split; [exact Hcount | exact Hjoin].
Defined.

(** X18.  When the child process exits with 0, [read_file],
    [read_file_lines], [get_file_info], [get_current_directory] and
    [change_directory] report success and return as their text the stdout of
    the child, trimmed: white space at the start and at the end of a file is
    not returned. *)
Theorem text_payload_is_the_trimmed_output
    (run : launcher) (int_of_str : str → option Z)
    (op : file_op) (k : str) (cp : CompletedProcess) :
  payload_key op = Some k →
  run [wsl_path; u "sh"; u "-c"; command_of op] 30%Z = Return cp →
  cp_returncode cp = 0%Z →
  ∃ d text,
    perform run int_of_str op = Return d
    ∧ reports_success d
    ∧ d !! k = Some (VStr text)
    ∧ text = strip (cp_stdout cp)
    ∧ trimmed text.
Proof.
  intros Hk Hrun Hrc.
  pose proof (invoke_completed run (OpSimple (command_of op) 30%Z) cp Hrun)
    as Hcall.
  change (invoke run (OpSimple (command_of op) 30%Z))
    with (call run (command_of op)) in Hcall.
  cbn [passes_stdout] in Hcall.
  assert (Hd : ∃ d, perform run int_of_str op = Return d
                    ∧ reports_success d
                    ∧ d !! k = Some (VStr (strip (cp_stdout cp)))).
  { destruct op; try discriminate Hk; injection Hk as <-; simpl in *;
      unfold read_file, get_file_info, get_current_directory,
        change_directory, read_file_lines;
      rewrite Hcall; simpl; unfold succeeded; simpl;
      rewrite bool_decide_eq_true_2 by done;
      (eexists; split; [reflexivity|]); split; dict_lookup. }
  destruct Hd as (d & Hd & Hs & Hval).
  exists d, (strip (cp_stdout cp)).
  split; [done|]. split; [done|]. split; [done|].
  split; [done | apply strip_trimmed].
Qed.

Lemma text_payload_is_the_trimmed_output_witness :
  payload_key (FRead (u "/etc/motd") (u "utf-8")) = Some K_CONTENT
  ∧ completes_with 0%Z (u "  welcome  ") []
      [wsl_path; u "sh"; u "-c"; command_of (FRead (u "/etc/motd") (u "utf-8"))]
      30%Z
    = Return (Completed 0%Z (u "  welcome  ") [])
  ∧ cp_returncode (Completed 0%Z (u "  welcome  ") []) = 0%Z
  ∧ ∃ d text,
      perform (completes_with 0%Z (u "  welcome  ") []) digits_only
        (FRead (u "/etc/motd") (u "utf-8")) = Return d
      ∧ reports_success d
      ∧ d !! K_CONTENT = Some (VStr text)
      ∧ text = strip (cp_stdout (Completed 0%Z (u "  welcome  ") []))
      ∧ trimmed text.
Proof.
  split; [reflexivity|]. split; [reflexivity|]. split; [reflexivity|].
  exact (text_payload_is_the_trimmed_output
           (completes_with 0%Z (u "  welcome  ") []) digits_only
           (FRead (u "/etc/motd") (u "utf-8")) K_CONTENT
           (Completed 0%Z (u "  welcome  ") []) eq_refl eq_refl eq_refl).
Defined.

(** X19.  On exit code 0 [count_lines] never raises: when the trimmed stdout
    has a first token that [int] accepts, it reports success with that
    integer as the number of lines; when the stdout is blank or its first
    token is not an integer, it reports failure with a fixed error text and
    no number. *)
Theorem count_lines_result
    (run : launcher) (int_of_str : str → option Z)
    (file_path : str) (result : WSLCommandResult) :
  call run (count_lines_command file_path) = Return result →
  returncode result = 0%Z →
  ∃ d, count_lines run int_of_str file_path = Return d
    ∧ d !! K_FILE_PATH = Some (VStr file_path)
    ∧ match split_ws (strip (stdout result)) !! 0%nat ≫= int_of_str with
      | Some n =>
          reports_success d ∧ d !! u "行数" = Some (VInt n)
          ∧ error_detail d = None
      | None =>
          reports_failure d ∧ d !! u "行数" = None
          ∧ error_detail d = Some (VStr (u "无法解析行数"))
      end.
Proof.
  intros Hcall Hrc. unfold count_lines. rewrite Hcall. simpl.
  unfold succeeded. rewrite bool_decide_eq_true_2 by done.
  destruct (split_ws (strip (stdout result))) as [|first rest];
    cbn [index lookup list_lookup mbind pyresult_bind try_except option_bind].
  - eexists. split; [reflexivity|]. repeat split; dict_lookup.
  - unfold py_int. destruct (int_of_str first) as [n|];
      cbn [mbind pyresult_bind try_except mret pyresult_ret is_class
           exn_class_of orb];
      (eexists; split; [reflexivity|]); repeat split; dict_lookup.
Qed.

Lemma count_lines_result_witness :
  call (completes_with 0%Z (u "42 /tmp/x") []) (count_lines_command (u "/tmp/x"))
    = Return (mkResult 0%Z (u "42 /tmp/x") [])
  ∧ returncode (mkResult 0%Z (u "42 /tmp/x") []) = 0%Z
  ∧ ∃ d, count_lines (completes_with 0%Z (u "42 /tmp/x") []) digits_only (u "/tmp/x")
           = Return d
      ∧ reports_success d
      ∧ d !! u "行数" = Some (VInt 42%Z).
Proof.
  assert (Hcall :
    call (completes_with 0%Z (u "42 /tmp/x") []) (count_lines_command (u "/tmp/x"))
      = Return (mkResult 0%Z (u "42 /tmp/x") [])) by (vm_compute; reflexivity).
  assert (Hparse :
    split_ws (strip (stdout (mkResult 0%Z (u "42 /tmp/x") []))) !! 0%nat
      ≫= digits_only = Some 42%Z) by (vm_compute; reflexivity).
  split; [exact Hcall|]. split; [reflexivity|].
  destruct (count_lines_result
              (completes_with 0%Z (u "42 /tmp/x") []) digits_only (u "/tmp/x")
              (mkResult 0%Z (u "42 /tmp/x") []) Hcall eq_refl)
    as (d & Hd & _ & Hm).
  rewrite Hparse in Hm. destruct Hm as (Hs & Hn & _).
  exists d. split; [exact Hd|]. split; [exact Hs | exact Hn].
Defined.


(* ================================================================== *)
(** ** The tools of the server *)
(* ================================================================== *)

Section ServerFacts.
Variable run : launcher.

Lemma bridge_tool_fields (op : bridge_op) (r : WSLCommandResult) :
  invoke run op = Return r →
  ∃ d, bridge_tool run op = Return d
    ∧ d !! K_SUCCESS = Some (VBool (bool_decide (returncode r = 0%Z)))
    ∧ d !! stdout_key op = Some (VStr (stdout r))
    ∧ d !! K_ERROR = Some (VStr (stderr r))
    ∧ d !! Server.K_RETURNCODE
        = (if names_timeout op then Some (VInt (returncode r)) else None).
Proof.
  intros Hr.
  destruct op; cbn [invoke bridge_tool stdout_key names_timeout] in *;
    unfold Server.execute_wsl_command, Server.execute_wsl_command_advanced,
      Server.shutdown_wsl, Server.terminate_wsl_distribution,
      Server.set_default_wsl_distribution, Server.export_wsl_distribution,
      Server.import_wsl_distribution, Server.unregister_wsl_distribution,
      Server.get_wsl_status, Server.install_wsl_distribution, Server.exit_ok;
    rewrite Hr; cbn [mbind pyresult_bind mret pyresult_ret];
    (eexists; split; [reflexivity|]); repeat split; dict_lookup.
Qed.

End ServerFacts.

(** X20.  Every tool of the server over a bridge operation returns a
    dictionary built from the outcome and raises nothing: it reports success
    exactly when the exit code is 0 and failure otherwise, holds the stdout
    under the key of the tool and the stderr as the error detail, on success
    too; only the two run tools hold the exit code. *)
Theorem bridge_tool_reports_the_outcome (run : launcher) (op : bridge_op) :
  ∃ r d, invoke run op = Return r
    ∧ bridge_tool run op = Return d
    ∧ (reports_success d ↔ returncode r = 0%Z)
    ∧ (reports_failure d ↔ returncode r ≠ 0%Z)
    ∧ d !! stdout_key op = Some (VStr (stdout r))
    ∧ error_detail d = Some (VStr (stderr r))
    ∧ d !! Server.K_RETURNCODE
        = (if names_timeout op then Some (VInt (returncode r)) else None).
Proof.
  destruct (invoke_returns run op) as [r Hr].
  destruct (bridge_tool_fields run op r Hr) as (d & Hd & Hs & Hout & Herr & Hrc).
  exists r, d. split; [done|]. split; [done|].
  unfold reports_success, reports_failure, error_detail. rewrite Hs.
  split; [|split; [|done]].
  - case_bool_decide; split; congruence.
  - case_bool_decide; split; congruence.
Qed.

(** X21.  A tool of the server over a command with a fixed message
    reports success exactly when its message field is the message of the
    command, which is never empty, and failure exactly when the field is
    empty; when the launcher raises it reports failure with the text of the
    exception, a timeout included. *)
Theorem lifecycle_tool_success_iff_message (run : launcher) (op : bridge_op) :
  passes_stdout op = false →
  ∃ d msg, bridge_tool run op = Return d
    ∧ d !! K_MESSAGE = Some (VStr msg)
    ∧ success_message op ≠ []
    ∧ (reports_success d ↔ msg = success_message op)
    ∧ (reports_failure d ↔ msg = [])
    ∧ (∀ e, run (argv_of op) (timeout_of op) = Raise e →
         reports_failure d ∧ error_detail d = Some (VStr (exn_str e))).
Proof.
  intros Hop.
  pose proof (success_message_nonempty op Hop) as Hmsg.
  destruct (invoke_returns run op) as [r Hr].
  destruct (bridge_tool_fields run op r Hr) as (d & Hd & Hs & Hout & Herr & _).
  assert (Hkey : stdout_key op = K_MESSAGE) by (by destruct op).
  rewrite Hkey in Hout.
  exists d, (stdout r). split; [done|]. split; [done|]. split; [done|].
  unfold reports_success, reports_failure, error_detail. rewrite Hs, Herr.
  clear Hd Hs Hout Herr.
  destruct (invoke_cases run op r Hr) as [(cp & Hrun & Hreq) | (e & Hrun & Hreq)];
    clear Hr; subst r; cbn [returncode stdout stderr]; rewrite ?Hop.
  - case_bool_decide as Hrc.
    + split; [done|]. split; [split; [discriminate | by intros ?]|].
      intros e He. congruence.
    + split; [split; [discriminate | by intros ?]|]. split; [done|].
      intros e He. congruence.
  - rewrite bool_decide_eq_false_2 by discriminate.
    split; [split; [discriminate | by intros ?]|]. split; [done|].
    intros e' He'. rewrite Hrun in He'. injection He' as <-.
    assert (names_timeout op = false) as -> by (by destruct op). done.
Qed.

Lemma lifecycle_tool_success_iff_message_witness :
  passes_stdout OpShutdown = false
  ∧ ∃ d msg,
      bridge_tool (completes_with 0%Z [] []) OpShutdown = Return d
      ∧ d !! K_MESSAGE = Some (VStr msg)
      ∧ (reports_success d ↔ msg = success_message OpShutdown).
Proof.
  split; [reflexivity|].
  destruct (lifecycle_tool_success_iff_message
              (completes_with 0%Z [] []) OpShutdown eq_refl)
    as (d & msg & Hd & Hmsg & _ & Hs & _).
  exists d, msg. split; [exact Hd|]. split; [exact Hmsg | exact Hs].
Defined.

(** X22.  The four query tools (version, installed distributions, online
    distributions, default distribution) never report failure: a dictionary
    they return reports success and holds no error detail.  They return
    whenever the launcher completes.  When the launcher raises, the online
    listing returns an empty list with count 0 and the other three raise the
    exception. *)
Theorem query_tools_never_report_failure (run : launcher) (q : query) :
  (∀ d, query_tool run q = Return d →
        reports_success d ∧ error_detail d = None)
  ∧ (∀ cp, run (query_argv q) (query_timeout q) = Return cp →
           ∃ d, query_tool run q = Return d)
  ∧ (∀ e, run (query_argv q) (query_timeout q) = Raise e →
          match q with
          | QOnline =>
              ∃ d, query_tool run q = Return d
                   ∧ d !! Server.K_COUNT = Some (VInt 0%Z)
                   ∧ d !! Server.K_LIST = Some (VList [])
          | _ => query_tool run q = Raise e
          end).
Proof.
  split; [|split].
  - intros d.
    destruct q; cbn [query_tool];
      unfold Server.get_wsl_version, Server.list_wsl_distributions,
        Server.list_wsl_online_distributions, Server.get_default_distribution;
      match goal with
      | |- context [mbind _ ?m] => destruct m as [x|e]; [|discriminate]
      end;
      cbn [mbind pyresult_bind mret pyresult_ret]; intros [= <-];
      split; dict_lookup.
  - intros cp Hrun.
    destruct q; cbn [query_tool query_argv query_timeout] in *;
      unfold Server.get_wsl_version, Server.list_wsl_distributions,
        Server.list_wsl_online_distributions, Server.get_default_distribution,
        get_wsl_version, list_distributions, list_online_distributions,
        get_default_distribution;
      rewrite Hrun; cbn [mbind pyresult_bind mret pyresult_ret try_except];
      try (case_bool_decide; rewrite ?distro_loop;
           cbn [mbind pyresult_bind mret pyresult_ret try_except]);
      eauto.
  - intros e Hrun.
    destruct q; cbn [query_tool query_argv query_timeout] in *;
      unfold Server.get_wsl_version, Server.list_wsl_distributions,
        Server.list_wsl_online_distributions, Server.get_default_distribution,
        get_wsl_version, list_distributions, list_online_distributions,
        get_default_distribution;
      rewrite Hrun; cbn [mbind pyresult_bind mret pyresult_ret try_except];
      try reflexivity.
    eexists. split; [reflexivity|]. split; dict_lookup.
Qed.

(** X23.  When the launcher exits with a code other than 0 the query tools
    still report success: the version is a fixed text, the default
    distribution is the empty string, and the two listings are empty with
    count 0. *)
Theorem query_tools_fallback_on_nonzero_exit
    (run : launcher) (q : query) (cp : CompletedProcess) :
  run (query_argv q) (query_timeout q) = Return cp →
  cp_returncode cp ≠ 0%Z →
  ∃ d, query_tool run q = Return d
    ∧ reports_success d
    ∧ match q with
      | QVersion => d !! u "版本信息" = Some (VStr (u "无法获取WSL版本"))
      | QDefault => d !! u "默认发行版" = Some (VStr [])
      | QDistributions | QOnline =>
          d !! Server.K_COUNT = Some (VInt 0%Z)
          ∧ d !! Server.K_LIST = Some (VList [])
      end.
Proof.
  intros Hrun Hrc.
  destruct q; cbn [query_tool query_argv query_timeout] in *;
    unfold Server.get_wsl_version, Server.list_wsl_distributions,
      Server.list_wsl_online_distributions, Server.get_default_distribution,
      get_wsl_version, list_distributions, list_online_distributions,
      get_default_distribution;
    rewrite Hrun; cbn [mbind pyresult_bind mret pyresult_ret try_except];
    rewrite (bool_decide_eq_false_2 _ Hrc);
    cbn [mbind pyresult_bind mret pyresult_ret try_except];
    (eexists; split; [reflexivity|]); repeat split; dict_lookup.
Qed.

Lemma query_tools_fallback_on_nonzero_exit_witness :
  completes_with 1%Z [] (u "denied") (query_argv QVersion) (query_timeout QVersion)
    = Return (Completed 1%Z [] (u "denied"))
  ∧ cp_returncode (Completed 1%Z [] (u "denied")) ≠ 0%Z
  ∧ ∃ d, query_tool (completes_with 1%Z [] (u "denied")) QVersion = Return d
      ∧ reports_success d
      ∧ d !! u "版本信息" = Some (VStr (u "无法获取WSL版本")).
Proof.
  assert (Hrc : cp_returncode (Completed 1%Z [] (u "denied")) ≠ 0%Z)
    by discriminate.
  split; [reflexivity|]. split; [exact Hrc|].
  exact (query_tools_fallback_on_nonzero_exit
           (completes_with 1%Z [] (u "denied")) QVersion
           (Completed 1%Z [] (u "denied")) eq_refl Hrc).
Defined.

(** X24.  The count the two listing tools return is the length of the
    list they return.  Every name of the online listing is non-empty,
    trimmed and free of line feeds; every descriptor of the installed
    listing has a non-empty name. *)
Theorem listing_tools_count_their_entries (run : launcher) (d : dict) :
  (Server.list_wsl_online_distributions run = Return d →
     ∃ names, d !! Server.K_LIST = Some (VList (VStr <$> names))
       ∧ d !! Server.K_COUNT = Some (VInt (Z.of_nat (length names)))
       ∧ Forall (λ e, e ≠ [] ∧ trimmed e ∧ NEWLINE ∉ e) names)
  ∧ (Server.list_wsl_distributions run = Return d →
       ∃ distros, d !! Server.K_LIST = Some (VList (VDict <$> distros))
         ∧ d !! Server.K_COUNT = Some (VInt (Z.of_nat (length distros)))
         ∧ Forall (λ e, ∃ name, e !! u "名称" = Some (VStr name) ∧ name ≠ [])
                  distros).
Proof.
  split.
  - unfold Server.list_wsl_online_distributions.
    destruct (list_online_distributions_cases run) as (lines & -> & Hlines).
    cbn [mbind pyresult_bind mret pyresult_ret]. intros [= <-].
    exists (flat_map online_entries lines).
    split; [dict_lookup|]. split; [dict_lookup|].
    by apply online_entries_wellformed.
  - unfold Server.list_wsl_distributions.
    destruct (list_distributions run) as [l|e] eqn:Hl; [|discriminate].
    cbn [mbind pyresult_bind mret pyresult_ret]. intros [= <-].
    exists l. split; [dict_lookup|]. split; [dict_lookup|].
    destruct (list_distributions_cases run l Hl) as [lines ->].
    eapply Forall_impl; [apply distro_entries_wellformed|].
    intros e (name & state & version & -> & Hne & _).
    exists name. split; [dict_lookup | done].
Qed.

(** X25.  The two path tools return for every input and raise nothing;
    they report success, hold no error detail, echo the input and hold the
    result of the conversion. *)
Theorem path_tools_echo_and_convert
    (unicode_lower unicode_upper : char → str) (path : str) :
  (∃ r d, convert_windows_path unicode_lower path = Return r
      ∧ Server.convert_windows_to_wsl_path unicode_lower path = Return d
      ∧ reports_success d ∧ error_detail d = None
      ∧ d !! u "Windows路径" = Some (VStr path)
      ∧ d !! u "WSL路径" = Some (VStr r))
  ∧ (∃ r d, convert_to_windows_path unicode_upper path = Return r
      ∧ Server.convert_wsl_to_windows_path unicode_upper path = Return d
      ∧ reports_success d ∧ error_detail d = None
      ∧ d !! u "WSL路径" = Some (VStr path)
      ∧ d !! u "Windows路径" = Some (VStr r)).
Proof.
  split.
  - assert (Hr : ∃ r, convert_windows_path unicode_lower path = Return r).
    { destruct (decide (path !! 1%nat = Some COLON)) as [H | H].
      - destruct path as [|c [|c' t]]; try discriminate. injection H as ->.
        eexists. by apply convert_windows_path_matched.
      - exists path. by apply convert_windows_path_no_colon. }
    destruct Hr as [r Hr]. exists r.
    unfold Server.convert_windows_to_wsl_path. rewrite Hr.
    cbn [mbind pyresult_bind mret pyresult_ret].
    eexists. split; [done|]. split; [reflexivity|]. repeat split; dict_lookup.
  - assert (Hr : ∃ r, convert_to_windows_path unicode_upper path = Return r).
    { destruct (startswith path (u "/mnt/")) eqn:E.
      - apply startswith_spec in E as [rest ->].
        destruct (split_has_head SLASH rest) as (h & t & Hsplit).
        eexists. by apply (convert_to_windows_path_matched _ rest h t).
      - exists path. by apply convert_to_windows_path_no_mnt. }
    destruct Hr as [r Hr]. exists r.
    unfold Server.convert_wsl_to_windows_path. rewrite Hr.
    cbn [mbind pyresult_bind mret pyresult_ret].
    eexists. split; [done|]. split; [reflexivity|]. repeat split; dict_lookup.
Qed.
